(** * disco-detect.py: the discontinuity detector of pelagos-data

    A shallow embedding of [utils/disco-detect.py]: the record source
    ([csv.DictReader] as [main] uses it, and [NewlineJSONDictReader]),
    the scan loop of [main] with its [last_row] / [discontinuity_counts]
    state, and the four output products.

    Conventions.
    - A Python [dict] is a [gmap].  The rows of [csv.DictReader] are keyed
      by field names, plus the reader's [restkey], which [main] leaves at
      its default [None]: keys are [option string], [None] being that
      restkey.
    - [o_f] is the sequence of strings handed to [o_f.write] (and to the
      frequency writer) during the run, in order.  [console] records the
      progress meter and the row diagnostics sent to [sys.stdout]; the
      fixed banner and error texts are not recorded.
    - Library code is taken as a parameter of the development: the line
      tokeniser [csv.reader], [csv.writer]'s row formatting, [json.loads],
      [json.dumps], [os.linesep], and OGR's WKT parser and [Distance].
    - [datetime.fromtimestamp] gives a naive datetime of the local zone.
      The zone belongs to the machine, not to the script: it is the
      [localtime] of the libraries, and nothing is assumed of it.  A naive
      datetime is kept as the count of seconds from 1970-01-01 00:00:00
      to its reading on the calendar clock, so that the difference of two
      datetimes is the difference of the two counts; it is the difference
      of the two timestamps only where the zone has the same UTC offset at
      both. *)

From Stdlib Require Import ZArith QArith String Ascii List Bool Lia.
From stdpp Require Import base option list gmap strings fin_maps pretty.

Local Open Scope string_scope.
Local Open Scope list_scope.
Local Open Scope Z_scope.

(** ** Python values held by a row *)

Inductive pyval :=
  | PStr (s : string)            (* a column read from the file *)
  | PNone                        (* DictReader's restval for a short row *)
  | PList (l : list string).     (* the surplus columns stored under restkey *)

#[global] Instance pyval_eq_dec : EqDecision pyval.
Proof. solve_decision. Defined.

Definition pyval_enc (v : pyval) : string + (unit + list string) :=
  match v with
  | PStr s => inl s
  | PNone => inr (inl tt)
  | PList l => inr (inr l)
  end.

Definition pyval_dec (x : string + (unit + list string)) : pyval :=
  match x with
  | inl s => PStr s
  | inr (inl _) => PNone
  | inr (inr l) => PList l
  end.

#[global] Instance pyval_countable : Countable pyval.
Proof.
  refine (inj_countable' pyval_enc pyval_dec _).
  intros [s| |l]; reflexivity.
Defined.

Abbreviation record := (gmap (option string) pyval).

Definition field (name : string) : option string := Some name.

(** Exceptions that can leave [main]. *)
Inductive exn := KeyError | ValueError | TypeError | IOError | RuntimeError.

(** How the body of [main] stops: a [return code], or an exception that is
    not caught. *)
Inductive halt :=
  | Return (code : Z)
  | Raise (e : exn).

#[global] Instance exn_eq_dec : EqDecision exn.
Proof. solve_decision. Defined.

#[global] Instance halt_eq_dec : EqDecision halt.
Proof. solve_decision. Defined.

(** A small error monad for the expressions of the loop body. *)
Definition res (A : Type) : Type := A + halt.

Definition ret {A} (a : A) : res A := inl a.
Definition throw {A} (e : exn) : res A := inr (Raise e).
Definition bind {A B} (m : res A) (k : A -> res B) : res B :=
  match m with
  | inl a => k a
  | inr h => inr h
  end.

Notation "'do' x <- m 'in' k" := (bind m (fun x => k))
  (at level 10, x name, m at level 99, k at level 200).

(** [d[k]]: a missing key raises [KeyError]. *)
Definition getitem (d : record) (k : string) : res pyval :=
  match d !! field k with
  | Some v => ret v
  | None => throw KeyError
  end.

(** ** Strings: [str.join], [str.replace(sep, '')], [int(...)], ['%s' % v] *)

Fixpoint join (sep : string) (l : list string) : string :=
  match l with
  | [] => EmptyString
  | [s] => s
  | s :: rest => s +:+ sep +:+ join sep rest
  end.

Fixpoint remove_all_from (sep : string) (skip : nat) (s : string) : string :=
  match s with
  | EmptyString => EmptyString
  | String c s' =>
      match skip with
      | S n => remove_all_from sep n s'
      | O =>
          if (negb (String.eqb sep EmptyString)) && String.prefix sep s
          then remove_all_from sep (Nat.pred (String.length sep)) s'
          else String c (remove_all_from sep O s')
      end
  end.

(** [s.replace(sep, '')] *)
Definition remove_all (sep s : string) : string := remove_all_from sep O s.

Definition is_space (c : ascii) : bool :=
  let n := nat_of_ascii c in
  (Nat.eqb n 32) || ((Nat.leb 9 n) && (Nat.leb n 13)).

Fixpoint lstrip (s : string) : string :=
  match s with
  | String c s' => if is_space c then lstrip s' else s
  | EmptyString => EmptyString
  end.

Fixpoint rstrip (s : string) : string :=
  match s with
  | EmptyString => EmptyString
  | String c s' =>
      match rstrip s' with
      | EmptyString => if is_space c then EmptyString else String c EmptyString
      | t => String c t
      end
  end.

Definition digit_val (c : ascii) : option Z :=
  let n := nat_of_ascii c in
  if (Nat.leb 48 n) && (Nat.leb n 57) then Some (Z.of_nat (n - 48)) else None.

Fixpoint digits (s : string) (acc : Z) : option Z :=
  match s with
  | EmptyString => Some acc
  | String c s' =>
      match digit_val c with
      | Some d => digits s' (10 * acc + d)
      | None => None
      end
  end.

Definition nonempty_digits (s : string) : option Z :=
  match s with
  | EmptyString => None
  | _ => digits s 0
  end.

(** The decimal literals [int] accepts: blanks around an optional sign and
    at least one digit. *)
Definition int_of_string (s : string) : option Z :=
  match rstrip (lstrip s) with
  | String "-"%char s' => Z.opp <$> nonempty_digits s'
  | String "+"%char s' => nonempty_digits s'
  | s' => nonempty_digits s'
  end.

(** [int(v)] *)
Definition py_int (v : pyval) : res Z :=
  match v with
  | PStr s =>
      match int_of_string s with
      | Some z => ret z
      | None => throw ValueError
      end
  | PNone => throw TypeError
  | PList _ => throw TypeError
  end.

(** [str(v)] as ['%s' % v] computes it; a list prints its items quoted. *)
Definition py_str (v : pyval) : string :=
  match v with
  | PStr s => s
  | PNone => "None"
  | PList l => "[" +:+ join ", " (map (fun s => "'" +:+ s +:+ "'") l) +:+ "]"
  end.

(** ** Time *)

(** A naive datetime: the seconds from 1970-01-01 00:00:00 to its reading,
    on the calendar clock, with no zone attached. *)
Abbreviation datetime := Z.

(** [datetime.min] and [datetime.max] to the second: 0001-01-01 00:00:00
    and 9999-12-31 23:59:59. *)
Definition datetime_min : datetime := -62135596800.
Definition datetime_max : datetime := 253402300799.

(** [(process_timestamp - last_timestamp).seconds] for two naive
    datetimes: their difference is a [timedelta], normalised to [days]
    (of any sign) and [0 <= seconds < 86400], and this is the [seconds]
    attribute alone. *)
Definition td_seconds (last_timestamp process_timestamp : datetime) : Z :=
  (process_timestamp - last_timestamp) mod 86400.

(** ** Configuration: the locals of [main] once the arguments are parsed *)

Record config := {
  time_threshold : Z;
  distance_threshold : Z;
  input_schema : option string;
  skip_lines : Z;
  quiet_mode : bool;
  output_product : string;
  input_file_format : string;
  output_file : string
}.

Definition valid_output_products : list string :=
  ["frequency"; "csv"; "csv-no-schema"; "newline"].

Definition valid_input_file_formats : list string := ["csv"; "newline"].

Definition mem_string (s : string) (l : list string) : bool :=
  existsb (String.eqb s) l.

(** The checks of "Validate parameters" that depend on the options alone
    (the file-access checks concern the file system). [false] makes [main]
    return 1 before any input is read. *)
Definition validate (cfg : config) : bool :=
  (0 <=? time_threshold cfg) && (0 <=? distance_threshold cfg)
  && mem_string (output_product cfg) valid_output_products
  && mem_string (input_file_format cfg) valid_input_file_formats.

(** ** csv.DictReader *)

(** [dict(zip(fieldnames, row))]: a later pair overrides an earlier one
    with the same key. *)
Definition dict_zip (fieldnames row : list string) : record :=
  foldl (fun d kv => <[field (fst kv) := PStr (snd kv)]> d) ∅
        (zip fieldnames row).

(** The dict [DictReader.next] builds from one non-empty row. *)
Definition DictReader_row (fieldnames row : list string) : record :=
  let d := dict_zip fieldnames row in
  let lf := length fieldnames in
  let lr := length row in
  if Nat.ltb lf lr then <[None := PList (drop lf row)]> d
  else if Nat.ltb lr lf then
    foldl (fun d k => <[field k := PNone]> d) d (drop lr fieldnames)
  else d.

Definition is_blank_row (row : list string) : bool :=
  match row with
  | [] => true
  | _ => false
  end.

(** The rows a [DictReader] iterates over: blank rows are skipped. *)
Definition DictReader_rows (fieldnames : list string) (rows : list (list string))
  : list record :=
  map (DictReader_row fieldnames)
      (List.filter (fun r => negb (is_blank_row r)) rows).

(** A schema given as one string is used by [DictReader] as a sequence:
    its items are the characters. *)
Fixpoint chars (s : string) : list string :=
  match s with
  | EmptyString => []
  | String c s' => String c EmptyString :: chars s'
  end.

(** What [main] gets from a reader: the [fieldnames] attribute, the rows
    the iteration yields, and the exception (if any) that ends the
    iteration instead of [StopIteration]. *)
Record reader := {
  fieldnames : option (list string);
  rows : list record;
  at_end : option exn
}.

Definition truthy_schema (s : option string) : option string :=
  match s with
  | Some EmptyString => None
  | other => other
  end.

Definition csv_DictReader (parsed : list (list string)) (schema : option string)
  : reader :=
  match truthy_schema schema with
  | Some s =>
      {| fieldnames := Some (chars s);
         rows := DictReader_rows (chars s) parsed;
         at_end := None |}
  | None =>
      match parsed with
      | [] => {| fieldnames := None; rows := []; at_end := None |}
      | header :: data =>
          {| fieldnames := Some header;
             rows := DictReader_rows header data;
             at_end := None |}
      end
  end.

(** ** The state of the scan *)

Inductive console_event :=
  | Progress (prog_i : nat) (prog_total : Z)   (* the "i/total" meter *)
  | PrintRow (row : option record).            (* print(row), print(last_row) *)

Record state := {
  o_f : list string;
  console : list console_event;
  discontinuity_counts : gmap pyval nat;
  last_row : option record
}.

Definition init_state : state :=
  {| o_f := []; console := []; discontinuity_counts := ∅; last_row := None |}.

Definition write (s : string) (st : state) : state :=
  {| o_f := o_f st ++ [s]; console := console st;
     discontinuity_counts := discontinuity_counts st; last_row := last_row st |}.

Definition tell (evs : list console_event) (st : state) : state :=
  {| o_f := o_f st; console := console st ++ evs;
     discontinuity_counts := discontinuity_counts st; last_row := last_row st |}.

Definition set_last_row (r : option record) (st : state) : state :=
  {| o_f := o_f st; console := console st;
     discontinuity_counts := discontinuity_counts st; last_row := r |}.

Definition set_count (k : pyval) (n : nat) (st : state) : state :=
  {| o_f := o_f st; console := console st;
     discontinuity_counts := <[k := n]> (discontinuity_counts st);
     last_row := last_row st |}.

(** [if d:] on a dict: true unless it is empty. *)
Definition truthy (d : record) : bool := negb (Nat.eqb (size d) 0).

(** [quiet_mode] after "Prepare data": forced when writing to stdout. *)
Definition quiet (cfg : config) : bool :=
  quiet_mode cfg || String.eqb (output_file cfg) "-".

Definition shows_progress (cfg : config) : bool :=
  negb (quiet cfg) && negb (String.eqb (output_file cfg) "-").

(** The line count taken before processing, less the skipped lines and
    the header row. *)
Definition prog_total (cfg : config) (lines : list string) : Z :=
  if shows_progress cfg then
    Z.of_nat (length lines) - skip_lines cfg
    - (match input_schema cfg with None => 1 | Some _ => 0 end)
  else 0.

Fixpoint getitems (d : record) (names : list string) : res (list pyval) :=
  match names with
  | [] => ret []
  | k :: rest =>
      do v <- getitem d k in
      do vs <- getitems d rest in
      ret (v :: vs)
  end.

(** [','.join] accepts strings only. *)
Fixpoint as_strings (vs : list pyval) : res (list string) :=
  match vs with
  | [] => ret []
  | PStr s :: rest => do ss <- as_strings rest in ret (s :: ss)
  | _ :: _ => throw TypeError
  end.

(** [','.join(row[_k] for _k in fieldnames)] *)
Definition csv_line (fn : option (list string)) (row : record) : res string :=
  match fn with
  | None => throw TypeError
  | Some names =>
      do vs <- getitems row names in
      do ss <- as_strings vs in
      ret (join "," ss)
  end.

(** A cell as [csv.writer] stringifies it: [None] is the empty string. *)
Definition cell (v : pyval) : string :=
  match v with
  | PNone => EmptyString
  | other => py_str other
  end.

(** ** The libraries [main] calls *)

Record library := {
  (** OGR geometries, [ogr.CreateGeometryFromWkt] ([None]: it raised) and
      [Geometry.Distance], a finite non-negative double read as a rational. *)
  geometry : Type;
  CreateGeometryFromWkt : string -> option geometry;
  Distance : geometry -> geometry -> Q;
  (** [json.dumps], [json.loads] ([None]: it raised [ValueError]). *)
  json_dumps : record -> string;
  json_loads : string -> option record;
  (** [csv.reader] over the lines of the file, and the line [csv.writer]
      writes for a row of cells. *)
  csv_reader : list string -> list (list string);
  csv_writerow : list string -> string;
  (** [os.linesep] *)
  linesep : string;
  (** [time.localtime] as [datetime.fromtimestamp] calls it: the reading
      of the local clock at a POSIX timestamp, in the zone the machine is
      set to and with its daylight-saving rules ([None]: the timestamp is
      out of the range of the platform, a [ValueError]). *)
  localtime : Z -> option datetime
}.

Section Detector.

Variable lib : library.

(** *** NewlineJSONDictReader *)

Fixpoint json_rows (lines : list string) : list record :=
  match lines with
  | [] => []
  | l :: rest =>
      match json_loads lib (remove_all (linesep lib) l) with
      | Some d => d :: json_rows rest
      | None => []
      end
  end.

(** [__init__] decodes the first line for the field names and rewinds;
    [next] decodes one line per call and has no [StopIteration]: the
    iteration ends with the [ValueError] of the first line that does not
    decode, the empty string read at the end of the file at the latest. *)
Definition NewlineJSONDictReader (lines : list string) : res reader :=
  match json_loads lib (remove_all (linesep lib) (hd EmptyString lines)) with
  | None => throw ValueError
  | Some first =>
      ret {| fieldnames := Some (omap fst (map_to_list first));
             rows := json_rows lines;
             at_end := Some ValueError |}
  end.

(** Lines 468-478: the reader for the selected input format. *)
Definition make_reader (cfg : config) (lines : list string) : res reader :=
  if String.eqb (input_file_format cfg) "json" then
    NewlineJSONDictReader lines
  else if String.eqb (input_file_format cfg) "csv" then
    ret (csv_DictReader (csv_reader lib lines) (input_schema cfg))
  else throw IOError.

(** *** The loop body *)

(** Lines 492-494. *)
Definition progress_meter (cfg : config) (total : Z) (prog_i : nat)
    (st : state) : state :=
  if shows_progress cfg then tell [Progress prog_i total] st else st.

(** Lines 497-503: a new mmsi resets [last_row]; a [KeyError] prints both
    rows and makes [main] return 1. *)
Definition group_check (st : state) (row : record) : state * option halt :=
  match last_row st with
  | None => (st, None)
  | Some lr =>
      if truthy lr then
        match (do a <- getitem row "mmsi" in
               do b <- getitem lr "mmsi" in
               ret (bool_decide (a <> b))) with
        | inl true => (set_last_row None st, None)
        | inl false => (st, None)
        | inr (Raise KeyError) =>
            (tell [PrintRow (Some row); PrintRow (last_row st)] st,
             Some (Return 1))
        | inr h => (st, Some h)
        end
      else (st, None)
  end.

(** Lines 515-518: the OGR point of a row. *)
Definition make_point (d : record) : res (geometry lib) :=
  do lon <- getitem d "longitude" in
  do lat <- getitem d "latitude" in
  match CreateGeometryFromWkt lib
          ("POINT (" +:+ py_str lon +:+ " " +:+ py_str lat +:+ ")") with
  | Some g => ret g
  | None => throw RuntimeError
  end.

(** [datetime.fromtimestamp(n)]: the naive datetime the local clock shows
    at the timestamp [n]; a reading outside the years 1..9999 raises
    [ValueError], as a timestamp the platform cannot convert does. *)
Definition fromtimestamp (n : Z) : res datetime :=
  match localtime lib n with
  | Some local =>
      if (datetime_min <=? local) && (local <=? datetime_max) then ret local
      else throw ValueError
  | None => throw ValueError
  end.

(** Lines 509-510: [datetime.fromtimestamp(int(row['timestamp']))]. *)
Definition row_datetime (d : record) : res datetime :=
  do v <- getitem d "timestamp" in
  do n <- py_int v in
  fromtimestamp n.

(** Lines 509-521: the time test, then the distance test. *)
Definition is_discontinuity (cfg : config) (lr row : record) : res bool :=
  do last_timestamp <- row_datetime lr in
  do process_timestamp <- row_datetime row in
  if td_seconds last_timestamp process_timestamp <=? time_threshold cfg then
    do last_point <- make_point lr in
    do process_point <- make_point row in
    ret (Qle_bool (inject_Z (distance_threshold cfg))
                  (Distance lib last_point process_point))
  else ret false.

(** Lines 523-531: what a flagged row does for each output product. *)
Definition emit (cfg : config) (fn : option (list string)) (st : state)
    (row : record) : state * option halt :=
  let op := output_product cfg in
  if mem_string op ["csv"; "csv-no-schema"] then
    match csv_line fn row with
    | inl line => (write (line +:+ linesep lib) st, None)
    | inr h => (st, Some h)
    end
  else if String.eqb op "newline" then
    (write (json_dumps lib row +:+ linesep lib) st, None)
  else if String.eqb op "frequency" then
    match getitem row "mmsi" with
    | inl (PList _) => (st, Some (Raise TypeError))   (* unhashable *)
    | inl k =>
        match discontinuity_counts st !! k with
        | None => (set_count k 1 st, None)
        | Some c => (set_count k (c + 1) st, None)
        end
    | inr h => (st, Some h)
    end
  else (st, None).

(** Lines 506-531. *)
Definition check_row (cfg : config) (fn : option (list string)) (st : state)
    (row : record) : state * option halt :=
  match last_row st with
  | None => (st, None)
  | Some lr =>
      match is_discontinuity cfg lr row with
      | inl true => emit cfg fn st row
      | inl false => (st, None)
      | inr h => (st, Some h)
      end
  end.

(** One iteration of the loop, lines 489-534. *)
Definition process_row (cfg : config) (fn : option (list string)) (total : Z)
    (prog_i : nat) (st : state) (row : record) : state * option halt :=
  match group_check (progress_meter cfg total prog_i st) row with
  | (st1, Some h) => (st1, Some h)
  | (st1, None) =>
      match check_row cfg fn st1 row with
      | (st2, Some h) => (st2, Some h)
      | (st2, None) => (set_last_row (Some row) st2, None)
      end
  end.

(** [for prog_i, row in enumerate(reader)] *)
Fixpoint scan (cfg : config) (fn : option (list string)) (total : Z)
    (prog_i : nat) (rs : list record) (st : state) : state * option halt :=
  match rs with
  | [] => (st, None)
  | row :: rest =>
      match process_row cfg fn total prog_i st row with
      | (st', Some h) => (st', Some h)
      | (st', None) => scan cfg fn total (S prog_i) rest st'
      end
  end.

(** *** Before and after the loop *)

(** Lines 482-483. *)
Definition write_schema (cfg : config) (fn : option (list string))
    (st : state) : res state :=
  if String.eqb (output_product cfg) "csv" then
    match fn with
    | Some names => ret (write (join "," names +:+ linesep lib) st)
    | None => throw TypeError
    end
  else ret st.

(** Lines 540-544: the header and one line per counted mmsi. *)
Definition frequency_lines (counts : gmap pyval nat) : list string :=
  csv_writerow lib ["mmsi"; "count"]
  :: map (fun kv => csv_writerow lib [cell (fst kv); pretty (snd kv)])
         (map_to_list counts).

Definition dump_frequency (cfg : config) (st : state) : state :=
  if String.eqb (output_product cfg) "frequency" then
    {| o_f := o_f st ++ frequency_lines (discontinuity_counts st);
       console := console st;
       discontinuity_counts := discontinuity_counts st;
       last_row := last_row st |}
  else st.

(** [main], from "Validate parameters" on: the final state and how the
    run ended ([Return 0] on success). *)
Definition main (cfg : config) (lines : list string) : state * halt :=
  if negb (validate cfg) then (init_state, Return 1)
  else
    match make_reader cfg lines with
    | inr h => (init_state, h)
    | inl rd =>
        match write_schema cfg (fieldnames rd) init_state with
        | inr h => (init_state, h)
        | inl st0 =>
            match scan cfg (fieldnames rd) (prog_total cfg lines) O
                       (rows rd) st0 with
            | (st, Some h) => (st, h)
            | (st, None) =>
                match at_end rd with
                | Some e => (st, Raise e)
                | None => (dump_frequency cfg st, Return 0)
                end
            end
        end
    end.

End Detector.

(** ** [main(args)]: the command line

    The whole of [main]: the argument loop (lines 257-361), the checks of
    "Validate parameters" (lines 367-426), and the run modelled above.
    What the loop and the checks ask of the operating system is a
    parameter. *)

Record system := {
  (** [sys.stdin.isatty()] *)
  stdin_isatty : bool;
  (** [abspath(expanduser(path))] *)
  abspath : string -> string;
  (** [SetFromUserInput] accepts the definition (it does not raise). *)
  srs_valid : string -> bool;
  (** [os.access(path, os.R_OK)], [os.access(path, os.W_OK)],
      [isfile(path)], [dirname(path)] *)
  access_R : string -> bool;
  access_W : string -> bool;
  isfile : string -> bool;
  dirname : string -> string;
  (** The lines of the input ([-] is stdin). *)
  read_lines : string -> list string
}.

(** [s.lower()] on the ASCII letters. *)
Definition lower_ascii (c : ascii) : ascii :=
  let n := nat_of_ascii c in
  if (Nat.leb 65 n) && (Nat.leb n 90) then ascii_of_nat (n + 32) else c.

Fixpoint lower (s : string) : string :=
  match s with
  | EmptyString => EmptyString
  | String c s' => String (lower_ascii c) (lower s')
  end.

(** [if not path:] on a path that may be [None]. *)
Definition falsy_path (p : option string) : bool :=
  match p with
  | None => true
  | Some EmptyString => true
  | Some _ => false
  end.

Module Args.

(** The locals of [main] that the argument loop assigns. *)
Record locals := mk_locals {
  write_mode : string;
  skip_lines : Z;
  overwrite_mode : bool;
  assign_srs_from_cmdl : string;
  time_threshold : Z;
  distance_threshold : Z;
  quiet_mode : bool;
  output_product : string;
  input_file_format : string;
  input_file : option string;
  output_file : option string;
  input_schema : option string;
  arg_error : bool
}.

(** "Defaults" and "Containers", lines 233-259. *)
Definition initial : locals :=
  mk_locals "w" 0 false "EPSG:4326" 3600 1 false "csv" "csv" None None None
            false.

Definition set_write_mode (v : string) (L : locals) : locals :=
  let '(mk_locals _ b c d e f g h i j k l m) := L in
  mk_locals v b c d e f g h i j k l m.
Definition set_skip_lines (v : Z) (L : locals) : locals :=
  let '(mk_locals a _ c d e f g h i j k l m) := L in
  mk_locals a v c d e f g h i j k l m.
Definition set_overwrite_mode (v : bool) (L : locals) : locals :=
  let '(mk_locals a b _ d e f g h i j k l m) := L in
  mk_locals a b v d e f g h i j k l m.
Definition set_assign_srs_from_cmdl (v : string) (L : locals) : locals :=
  let '(mk_locals a b c _ e f g h i j k l m) := L in
  mk_locals a b c v e f g h i j k l m.
Definition set_time_threshold (v : Z) (L : locals) : locals :=
  let '(mk_locals a b c d _ f g h i j k l m) := L in
  mk_locals a b c d v f g h i j k l m.
Definition set_distance_threshold (v : Z) (L : locals) : locals :=
  let '(mk_locals a b c d e _ g h i j k l m) := L in
  mk_locals a b c d e v g h i j k l m.
Definition set_quiet_mode (v : bool) (L : locals) : locals :=
  let '(mk_locals a b c d e f _ h i j k l m) := L in
  mk_locals a b c d e f v h i j k l m.
Definition set_output_product (v : string) (L : locals) : locals :=
  let '(mk_locals a b c d e f g _ i j k l m) := L in
  mk_locals a b c d e f g v i j k l m.
Definition set_input_file_format (v : string) (L : locals) : locals :=
  let '(mk_locals a b c d e f g h _ j k l m) := L in
  mk_locals a b c d e f g h v j k l m.
Definition set_input_file (v : option string) (L : locals) : locals :=
  let '(mk_locals a b c d e f g h i _ k l m) := L in
  mk_locals a b c d e f g h i v k l m.
Definition set_output_file (v : option string) (L : locals) : locals :=
  let '(mk_locals a b c d e f g h i j _ l m) := L in
  mk_locals a b c d e f g h i j v l m.
Definition set_input_schema (v : option string) (L : locals) : locals :=
  let '(mk_locals a b c d e f g h i j k _ m) := L in
  mk_locals a b c d e f g h i j k v m.
Definition set_arg_error (v : bool) (L : locals) : locals :=
  let '(mk_locals a b c d e f g h i j k l _) := L in
  mk_locals a b c d e f g h i j k l v.

(** How the argument loop ends: a help option returns at once (the three
    print functions return 1), or the loop runs out of arguments. *)
Inductive parsed :=
  | Exit (code : Z)
  | Parsed (L : locals).

(** A positional argument, lines 330-351. *)
Definition positional (sys : system) (arg : string) (L : locals) : locals :=
  let path := if String.eqb arg "-" then arg else abspath sys arg in
  match input_file L with
  | None => set_input_file (Some path) L
  | Some _ =>
      match output_file L with
      | None => set_output_file (Some path) L
      | Some _ => set_arg_error true L
      end
  end.

(** The argument loop.  [args] is what is left from index [i] on.  An
    option with a parameter moves [i] by two before it reads [args[i - 1]];
    when that raises ([IndexError] past the end, [ValueError] from [int])
    the handler moves [i] once more, which skips the argument after the
    parameter. *)
Fixpoint parse_args (sys : system) (args : list string) (L : locals)
  : parsed :=
  match args with
  | [] => Parsed L
  | arg :: rest =>
      let failed := set_arg_error true L in
      let valued (assign : string -> option locals) :=
        match rest with
        | [] => Parsed failed
        | v :: rest' =>
            match assign v with
            | Some L' => parse_args sys rest' L'
            | None =>
                match rest' with
                | [] => Parsed failed
                | _ :: rest'' => parse_args sys rest'' failed
                end
            end
        end in
      if mem_string arg ["--help"; "-help"] then Exit 1
      else if mem_string arg ["--usage"; "-usage"] then Exit 1
      else if mem_string arg ["--long-usage"; "-long-usage"; "-lu"] then Exit 1
      else if mem_string arg ["-th"; "-time-threshold"] then
        valued (fun v => (fun z => set_time_threshold z L) <$> int_of_string v)
      else if mem_string arg ["-dh"; "-distance-threshold"] then
        valued (fun v => (fun z => set_distance_threshold z L)
                           <$> int_of_string v)
      else if mem_string arg ["-s"; "-schema"; "-header"] then
        valued (fun v => Some (set_input_schema (Some v) L))
      else if mem_string arg ["-sl"; "-skip-lines"] then
        valued (fun v => (fun z => set_skip_lines z L) <$> int_of_string v)
      else if String.eqb arg "-" && falsy_path (input_file L)
              && stdin_isatty sys then
        parse_args sys rest failed
      else if mem_string arg ["-q"; "-quiet"] then
        parse_args sys rest (set_quiet_mode true L)
      else if mem_string arg ["-overwrite"; "--overwrite"] then
        parse_args sys rest (set_overwrite_mode true L)
      else if mem_string arg ["-a-srs"; "-assign-srs"] then
        valued (fun v => Some (set_assign_srs_from_cmdl v L))
      else if mem_string arg ["-wm"; "-write-mode"] then
        valued (fun v => Some (set_write_mode v L))
      else if mem_string arg ["-op"; "-output-product"] then
        valued (fun v => Some (set_output_product (lower v) L))
      else if mem_string arg ["-ff"; "-file-format"] then
        valued (fun v => Some (set_input_file_format v L))
      else if String.eqb arg "-stdin" then
        parse_args sys rest (set_input_file (Some "-") L)
      else if String.eqb arg "-stdout" then
        parse_args sys rest (set_output_file (Some "-") L)
      else
        match arg with
        | EmptyString => parse_args sys rest failed     (* arg[0] *)
        | String c _ =>
            if Ascii.eqb c "-" && negb (String.eqb arg "-") then
              parse_args sys rest failed
            else parse_args sys rest (positional sys arg L)
        end
  end.

(** The checks on the input file and on the output file, lines 402-422. *)
Definition bad_input_file (sys : system) (L : locals) : bool :=
  match input_file L with
  | None => true
  | Some f => negb (String.eqb f "-") && negb (access_R sys f)
  end.

Definition bad_output_file (sys : system) (L : locals) : bool :=
  match output_file L with
  | None => true
  | Some f =>
      let named := negb (String.eqb f "-") in
      if named && negb (overwrite_mode L) && isfile sys f then true
      else if named && isfile sys f && negb (access_W sys f) then true
      else named && negb (isfile sys f) && negb (access_W sys (dirname sys f))
  end.

(** [bail] at line 425. *)
Definition bail (sys : system) (L : locals) : bool :=
  arg_error L
  || negb (srs_valid sys (assign_srs_from_cmdl L))
  || negb (0 <=? time_threshold L)
  || negb (0 <=? distance_threshold L)
  || negb (mem_string (output_product L) valid_output_products)
  || negb (mem_string (input_file_format L) valid_input_file_formats)
  || bad_input_file sys L
  || bad_output_file sys L.

(** The options the run reads, once the output file is known. *)
Definition to_config (L : locals) (output : string) : config :=
  Build_config (time_threshold L) (distance_threshold L) (input_schema L)
               (skip_lines L) (quiet_mode L) (output_product L)
               (input_file_format L) output.

End Args.

(** [main(args)].  Counting the lines for the progress total reads the
    input inside a [with] block, which closes it: when the input is stdin,
    the [with] block of the processing then meets a closed file and raises
    [ValueError] before anything is written. *)
Definition main_argv (sys : system) (lib : library) (args : list string)
  : state * halt :=
  match args with
  | [] => (init_state, Return 1)
  | _ =>
      match Args.parse_args sys args Args.initial with
      | Args.Exit code => (init_state, Return code)
      | Args.Parsed L =>
          if Args.bail sys L then (init_state, Return 1)
          else
            match Args.input_file L, Args.output_file L with
            | Some input, Some output =>
                let cfg := Args.to_config L output in
                if String.eqb input "-" && shows_progress cfg then
                  (init_state, Raise ValueError)
                else main lib cfg (read_lines sys input)
            | _, _ => (init_state, Return 1)
            end
      end
  end.


(** ** Vocabulary of the statements *)

(** The same run with another output product, another number of skipped
    lines, another input format. *)
Definition with_product (op : string) (cfg : config) : config :=
  {| time_threshold := time_threshold cfg;
     distance_threshold := distance_threshold cfg;
     input_schema := input_schema cfg; skip_lines := skip_lines cfg;
     quiet_mode := quiet_mode cfg; output_product := op;
     input_file_format := input_file_format cfg;
     output_file := output_file cfg |}.

Definition with_skip_lines (n : Z) (cfg : config) : config :=
  {| time_threshold := time_threshold cfg;
     distance_threshold := distance_threshold cfg;
     input_schema := input_schema cfg; skip_lines := n;
     quiet_mode := quiet_mode cfg; output_product := output_product cfg;
     input_file_format := input_file_format cfg;
     output_file := output_file cfg |}.

Definition with_input_file_format (ff : string) (cfg : config) : config :=
  {| time_threshold := time_threshold cfg;
     distance_threshold := distance_threshold cfg;
     input_schema := input_schema cfg; skip_lines := skip_lines cfg;
     quiet_mode := quiet_mode cfg; output_product := output_product cfg;
     input_file_format := ff;
     output_file := output_file cfg |}.

Definition with_input_schema (s : option string) (cfg : config) : config :=
  {| time_threshold := time_threshold cfg;
     distance_threshold := distance_threshold cfg;
     input_schema := s; skip_lines := skip_lines cfg;
     quiet_mode := quiet_mode cfg; output_product := output_product cfg;
     input_file_format := input_file_format cfg;
     output_file := output_file cfg |}.

(** No discontinuity event between two states: nothing was written and
    no count moved. *)
Definition no_event (st st' : state) : Prop :=
  o_f st' = o_f st /\ discontinuity_counts st' = discontinuity_counts st.

(** The sum of the counts of a frequency table. *)
Definition total (counts : gmap pyval nat) : nat :=
  map_fold (fun _ c acc => (c + acc)%nat) O counts.

(** The number of events a state has seen inside the loop: lines written
    plus counted points. *)
Definition events (st : state) : nat :=
  (length (o_f st) + total (discontinuity_counts st))%nat.

(** What a state holds besides the console. *)
Definition sink (st : state) : list string * gmap pyval nat * option record :=
  (o_f st, discontinuity_counts st, last_row st).

(** Exactly one event for [row] between two states, in the form the output
    product gives it: its line of values, its structured line, or one more
    point counted against its mmsi. *)
Definition one_event_for (lib : library) (cfg : config)
    (fn : option (list string)) (row : record) (st st' : state) : Prop :=
  if mem_string (output_product cfg) ["csv"; "csv-no-schema"] then
    exists line, csv_line fn row = inl line
      /\ o_f st' = o_f st ++ [line +:+ linesep lib]
      /\ discontinuity_counts st' = discontinuity_counts st
  else if String.eqb (output_product cfg) "newline" then
    o_f st' = o_f st ++ [json_dumps lib row +:+ linesep lib]
    /\ discontinuity_counts st' = discontinuity_counts st
  else
    exists m, row !! field "mmsi" = Some m
      /\ o_f st' = o_f st
      /\ discontinuity_counts st'
         = <[m := S (default O (discontinuity_counts st !! m))]>
             (discontinuity_counts st).

(** A list is no dict key. *)
Definition hashable (v : pyval) : bool :=
  match v with
  | PList _ => false
  | _ => true
  end.

(** The rows of a [DictReader] keep their field names among [fn], and hold
    a string or [None] under each. *)
Definition well_keyed (fn : list string) (d : record) : Prop :=
  forall k v, d !! field k = Some v -> In k fn /\ hashable v = true.









(** What the events leave in a state: the output and the counts. *)
Definition out (st : state) : list string * gmap pyval nat :=
  (o_f st, discontinuity_counts st).


(** The options the argument loop knows: those that end [main] at once,
    those that take a parameter, and the switches. *)
Definition help_options : list string :=
  ["--help"; "-help"; "--usage"; "-usage"; "--long-usage"; "-long-usage";
   "-lu"].







(** ** A concrete environment on which the model runs

    Unquoted comma-separated lines, integer coordinates with the planar
    distance rounded down to a whole unit, and POSIX line ends.  The
    theorems below hold for every [library]; this one serves to evaluate
    [main] on concrete files. *)

Module Sample.

Definition LF : string := String (ascii_of_nat 10) EmptyString.
Definition CRLF : string := String (ascii_of_nat 13) LF.
Definition DQ : string := String (ascii_of_nat 34) EmptyString.

Fixpoint split_on (sep : ascii) (s : string) : list string :=
  match s with
  | EmptyString => [EmptyString]
  | String c s' =>
      if Ascii.eqb c sep then EmptyString :: split_on sep s'
      else
        match split_on sep s' with
        | [] => [String c EmptyString]
        | x :: xs => String c x :: xs
        end
  end.

(** A blank line is the empty row; any other line splits at its commas. *)
Definition reader_rows (lines : list string) : list (list string) :=
  map (fun l =>
         match remove_all LF l with
         | EmptyString => []
         | l' => split_on ","%char l'
         end) lines.

Definition writerow (cells : list string) : string :=
  join "," cells +:+ CRLF.

Definition point : Type := Z * Z.

Definition point_of_wkt (wkt : string) : option point :=
  if String.prefix "POINT (" wkt then
    match split_on " "%char
            (String.substring 7 (String.length wkt - 8) wkt) with
    | [x; y] =>
        match int_of_string x, int_of_string y with
        | Some a, Some b =>
            if String.eqb (String.substring (String.length wkt - 1) 1 wkt) ")"
            then Some (a, b) else None
        | _, _ => None
        end
    | _ => None
    end
  else None.

Definition distance (p q : point) : Q :=
  inject_Z (Z.sqrt ((fst p - fst q) * (fst p - fst q)
                    + (snd p - snd q) * (snd p - snd q))).

Definition json_pair (kv : option string * pyval) : string :=
  match fst kv with
  | Some k => DQ +:+ k +:+ DQ +:+ ": " +:+ DQ +:+ py_str (snd kv) +:+ DQ
  | None => "null: " +:+ py_str (snd kv)
  end.

Definition dumps (d : record) : string :=
  "{" +:+ join ", " (map json_pair (map_to_list d)) +:+ "}".

Definition loads (s : string) : option record := None.

(** A machine set to UTC: the local clock reads the timestamp. *)
Definition utc (n : Z) : option datetime := Some n.

(** A machine set to America/New_York, for the timestamps of 2014:
    daylight-saving time (UTC-4) from 9 March 07:00 UTC (1394348400) to
    2 November 06:00 UTC (1414908000), standard time (UTC-5) outside. *)
Definition new_york (n : Z) : option datetime :=
  if (1394348400 <=? n) && (n <? 1414908000) then Some (n - 14400)
  else Some (n - 18000).

Definition lib_in (zone : Z -> option datetime) : library :=
  {| geometry := point; CreateGeometryFromWkt := point_of_wkt;
     Distance := distance; json_dumps := dumps; json_loads := loads;
     csv_reader := reader_rows; csv_writerow := writerow; linesep := LF;
     localtime := zone |}.

Definition lib : library := lib_in utc.

Definition run : config -> list string -> state * halt := main lib.

(** The defaults of [main]: one hour, one unit, csv in and out. *)
Definition defaults : config :=
  {| time_threshold := 3600; distance_threshold := 1;
     input_schema := None; skip_lines := 0; quiet_mode := true;
     output_product := "csv"; input_file_format := "csv";
     output_file := "out.csv" |}.

Definition line (s : string) : string := s +:+ LF.

(** *** Sample files *)

Definition header4 : string := "mmsi,timestamp,longitude,latitude".

(** Two points of one vessel, a day and ten seconds apart, far apart. *)
Definition day_gap_file : list string :=
  [line header4; line "1,0,0,0"; line "1,86410,5,5"].

(** Two points of one vessel, out of time order by 100 seconds. *)
Definition backwards_file : list string :=
  [line header4; line "1,100,0,0"; line "1,0,5,5"].

(** Half an hour and seven units apart; the second line lacks its last
    column. *)
Definition short_row_file : list string :=
  [line "mmsi,timestamp,longitude,latitude,name";
   line "1,0,0,0,a"; line "1,1800,5,5"].

(** The example of the specification: the second point is flagged. *)
Definition track_file : list string :=
  [line header4; line "1,0,0,0"; line "1,1800,5,5"; line "1,9000,5,5"].


(** *** Sample rows and states *)

Definition fields4 : list string :=
  ["mmsi"; "timestamp"; "longitude"; "latitude"].

Definition point_a : record := DictReader_row fields4 ["1"; "0"; "0"; "0"].
Definition point_b : record :=
  DictReader_row fields4 ["1"; "1800"; "5"; "5"].
(** The same place and time as [point_b], another vessel. *)
Definition point_other : record :=
  DictReader_row fields4 ["2"; "1800"; "5"; "5"].

(** The state of a scan that has just read [r]. *)
Definition after (r : record) : state := set_last_row (Some r) init_state.


(** One record without an mmsi column. *)
Definition no_mmsi_file : list string :=
  [line "timestamp,longitude,latitude"; line "0,0,0"].

(** Two records without an mmsi column. *)
Definition no_mmsi_pair_file : list string :=
  [line "timestamp,longitude,latitude"; line "0,0,0"; line "1800,5,5"].

(** Two vessels, one record each, no timestamp column. *)
Definition no_timestamp_file : list string :=
  [line "mmsi,longitude,latitude"; line "1,0,0"; line "2,5,5"].



(** The defaults without [-q]: the progress meter is shown. *)
Definition verbose : config :=
  {| time_threshold := 3600; distance_threshold := 1;
     input_schema := None; skip_lines := 0; quiet_mode := false;
     output_product := "csv"; input_file_format := "csv";
     output_file := "out.csv" |}.

(** The data lines of [track_file], for a run with [-s]. *)
Definition track_data : list string :=
  [line "1,0,0,0"; line "1,1800,5,5"; line "1,9000,5,5"].


(** *** A sample system for the command line *)

(** Files live under [/data]; [track.csv] holds the sample track and
    [old.csv] exists already. *)
Definition sys : system :=
  {| stdin_isatty := false;
     abspath := fun p => "/data/" +:+ p;
     srs_valid := String.eqb "EPSG:4326";
     access_R := String.eqb "/data/track.csv";
     access_W := fun f => String.eqb f "/data" || String.eqb f "/data/old.csv";
     isfile := fun f => String.eqb f "/data/track.csv"
                        || String.eqb f "/data/old.csv";
     dirname := fun _ => "/data";
     read_lines := fun f =>
       if String.eqb f "/data/track.csv" then track_file else [] |}.

(** [point_b] a day later. *)
Definition point_b_next_day : record :=
  DictReader_row fields4 ["1"; "88200"; "5"; "5"].

(** The defaults with a time threshold of one day. *)
Definition day_long : config :=
  {| time_threshold := 86400; distance_threshold := 1;
     input_schema := None; skip_lines := 0; quiet_mode := true;
     output_product := "csv"; input_file_format := "csv";
     output_file := "out.csv" |}.


(** *** Daylight saving *)

(** Half an hour and seven units apart, in time order, across the end of
    daylight-saving time in New York: 2 November 2014, 05:30 and 06:00
    UTC, which the clocks of New York show as 01:30 and 01:00. *)
Definition fall_back_file : list string :=
  [line header4; line "1,1414906200,0,0"; line "1,1414908000,5,5"].

(** Half an hour and seven units apart on 1 November 2014, 06:00 and
    06:30 UTC; and the same pair with the later record a day later, after
    the change. *)
Definition before_fall_back : record :=
  DictReader_row fields4 ["1"; "1414821600"; "0"; "0"].
Definition half_an_hour_later : record :=
  DictReader_row fields4 ["1"; "1414823400"; "5"; "5"].
Definition a_day_and_half_an_hour_later : record :=
  DictReader_row fields4 ["1"; "1414909800"; "5"; "5"].

End Sample.

(** * Properties *)

Section Facts.

Variable lib : library.

(** ** The loop body, step by step *)

Lemma progress_meter_keeps cfg t i st :
  o_f (progress_meter cfg t i st) = o_f st
  /\ discontinuity_counts (progress_meter cfg t i st) = discontinuity_counts st
  /\ last_row (progress_meter cfg t i st) = last_row st.
Proof. unfold progress_meter. destruct (shows_progress cfg); auto. Qed.

Lemma group_check_keeps st row st1 h :
  group_check st row = (st1, h) ->
  o_f st1 = o_f st /\ discontinuity_counts st1 = discontinuity_counts st.
Proof.
  unfold group_check. intros H.
  destruct (last_row st) as [lr|]; [|by inversion H].
  destruct (truthy lr); [|by inversion H].
  destruct (getitem row "mmsi") as [a|[c|[]]]; simpl in H;
    try (by inversion H).
  destruct (getitem lr "mmsi") as [b|[c|[]]]; simpl in H;
    try (by inversion H).
  destruct (bool_decide (a <> b)); by inversion H.
Qed.

Lemma group_check_last st row st1 :
  group_check st row = (st1, None) ->
  last_row st1 = last_row st \/ last_row st1 = None.
Proof.
  unfold group_check. intros H.
  destruct (last_row st) as [lr|] eqn:E; [|inversion H; subst; auto].
  destruct (truthy lr); [|inversion H; subst; auto].
  destruct (getitem row "mmsi") as [a|[c|[]]]; simpl in H;
    try (by inversion H).
  destruct (getitem lr "mmsi") as [b|[c|[]]]; simpl in H;
    try (by inversion H).
  destruct (bool_decide (a <> b)); inversion H; subst; auto.
Qed.

Lemma emit_last cfg fn st row st2 h :
  emit lib cfg fn st row = (st2, h) -> last_row st2 = last_row st.
Proof.
  unfold emit. intros H.
  destruct (mem_string _ _).
  { destruct (csv_line fn row); by inversion H. }
  destruct (String.eqb _ "newline"); [by inversion H|].
  destruct (String.eqb _ "frequency"); [|by inversion H].
  destruct (getitem row "mmsi") as [[s| |l]|]; try (by inversion H);
    destruct (discontinuity_counts st !! _); by inversion H.
Qed.

Lemma check_row_last cfg fn st row st2 h :
  check_row lib cfg fn st row = (st2, h) -> last_row st2 = last_row st.
Proof.
  unfold check_row. intros H.
  destruct (last_row st) as [lr|] eqn:E; [|inversion H; by subst].
  destruct (is_discontinuity lib cfg lr row) as [[|]|];
    [|inversion H; by subst..].
  apply emit_last in H. congruence.
Qed.

(** A row that is not flagged leaves the output as it was. *)
Lemma check_row_quiet cfg fn st row :
  (forall lr, last_row st = Some lr ->
              is_discontinuity lib cfg lr row <> inl true) ->
  exists h, check_row lib cfg fn st row = (st, h).
Proof.
  unfold check_row. intros H.
  destruct (last_row st) as [lr|]; [|eauto].
  specialize (H lr eq_refl).
  destruct (is_discontinuity lib cfg lr row) as [[|]|]; [done|eauto..].
Qed.

Lemma process_row_last cfg fn t i st row st' :
  process_row lib cfg fn t i st row = (st', None) ->
  last_row st' = Some row.
Proof.
  unfold process_row. intros H.
  destruct (group_check _ row) as [st1 [h|]]; [by inversion H|].
  destruct (check_row lib cfg fn st1 row) as [st2 [h|]];
    by inversion H.
Qed.

Lemma scan_app cfg fn t i rs1 rs2 st :
  scan lib cfg fn t i (rs1 ++ rs2) st =
  match scan lib cfg fn t i rs1 st with
  | (st', Some h) => (st', Some h)
  | (st', None) => scan lib cfg fn t (i + length rs1)%nat rs2 st'
  end.
Proof.
  revert i st. induction rs1 as [|r rs1 IH]; intros i st; simpl.
  - by rewrite Nat.add_0_r.
  - destruct (process_row lib cfg fn t i st r) as [st' [h|]]; [done|].
    rewrite IH. by replace (S i + length rs1)%nat with (i + S (length rs1))%nat by lia.
Qed.

Lemma scan_last cfg fn t i rs st0 st :
  scan lib cfg fn t i rs st0 = (st, None) ->
  last_row st = match last rs with
                | Some r => Some r
                | None => last_row st0
                end.
Proof.
  destruct rs as [|r0 rs0] using rev_ind; simpl.
  - intros H. by inversion H.
  - rewrite scan_app, last_snoc.
    destruct (scan lib cfg fn t i rs0 st0) as [st1 [h|]]; [done|]. simpl.
    destruct (process_row lib cfg fn t _ st1 r0) as [st2 [h|]] eqn:E;
      intros H; inversion H; subst.
    eapply process_row_last, E.
Qed.

Lemma falsy_empty (d : record) : truthy d = false -> d = ∅.
Proof.
  unfold truthy. intros H. apply map_size_empty_iff.
  apply Nat.eqb_eq. by destruct (Nat.eqb (size d) 0).
Qed.

Lemma truthy_lookup (d : record) k v : d !! k = Some v -> truthy d = true.
Proof.
  intros H. destruct (truthy d) eqn:E; [done|].
  apply falsy_empty in E. subst. by rewrite lookup_empty in H.
Qed.

Lemma is_discontinuity_empty cfg row :
  is_discontinuity lib cfg ∅ row = inr (Raise KeyError).
Proof. reflexivity. Qed.

(** The record that opens a group goes through the loop body without an
    event, whatever the body finds in it. *)
Lemma process_row_new_group cfg fn t i st row :
  (forall p, last_row st = Some p -> p !! field "mmsi" <> row !! field "mmsi") ->
  no_event st (fst (process_row lib cfg fn t i st row)).
Proof.
  intros Hnew. unfold process_row.
  destruct (progress_meter_keeps cfg t i st) as (Ho & Hc & Hl).
  set (st0 := progress_meter cfg t i st) in *.
  assert (Hquiet : forall st1, last_row st1 = None \/ last_row st1 = Some ∅ ->
            exists h, check_row lib cfg fn st1 row = (st1, h)).
  { intros st1 Hst1. apply check_row_quiet. intros lr Hlr.
    destruct Hst1 as [Hn|Hn]; rewrite Hn in Hlr; [done|].
    inversion Hlr; subst. by rewrite is_discontinuity_empty. }
  destruct (group_check st0 row) as [st1 [h|]] eqn:G.
  { apply group_check_keeps in G as [? ?]. split; simpl; congruence. }
  assert (Hst1 : last_row st1 = None \/ last_row st1 = Some ∅).
  { revert G. unfold group_check. rewrite Hl.
    destruct (last_row st) as [p|] eqn:Ep.
    2:{ intros G; inversion G; subst. left. by rewrite Hl. }
    specialize (Hnew p eq_refl).
    destruct (truthy p) eqn:T.
    2:{ intros G; inversion G; subst. right. rewrite Hl.
        by rewrite (falsy_empty _ T). }
    unfold getitem.
    destruct (row !! field "mmsi") as [a|] eqn:Ea; simpl; [|done].
    destruct (p !! field "mmsi") as [b|] eqn:Eb; simpl; [|done].
    rewrite bool_decide_true by congruence.
    intros G; inversion G; subst. by left. }
  apply group_check_keeps in G as [Go Gc].
  destruct (Hquiet st1 Hst1) as [h Hh]. rewrite Hh.
  destruct h; split; simpl; congruence.
Qed.

(** ** C8: the previous record *)

(** C8. After every iteration of the scan that the run survives, [last_row]
    is the record just processed, flagged or not: the state reached after
    any prefix of the input that ends in [r] holds [r], the immediate
    predecessor of the next record. *)
Theorem last_row_is_the_record_just_processed cfg fn t i pre r st0 st :
  scan lib cfg fn t i (pre ++ [r]) st0 = (st, None) ->
  last_row st = Some r.
Proof.
  intros H. apply scan_last in H. by rewrite last_snoc in H.
Qed.

(** ** C5: group boundaries *)

(** C5. A record whose predecessor in the input carries another mmsi, or
    that has no predecessor at all, is never flagged: the loop body
    writes nothing and counts nothing for it, whatever its timestamp and
    coordinates.  In particular a group of one record emits nothing. *)
Theorem first_record_of_a_group_is_never_flagged cfg fn t i j pre r st0 st :
  last_row st0 = None ->
  scan lib cfg fn t i pre st0 = (st, None) ->
  (forall p, last pre = Some p -> p !! field "mmsi" <> r !! field "mmsi") ->
  no_event st (fst (process_row lib cfg fn t j st r)).
Proof.
  intros H0 Hscan Hnew. apply process_row_new_group.
  intros p Hp. apply Hnew.
  apply scan_last in Hscan. rewrite Hp in Hscan.
  destruct (last pre); congruence.
Qed.


(** ** C10: the skip-lines option *)

Lemma sink_inv st st' :
  sink st = sink st' ->
  o_f st = o_f st' /\ discontinuity_counts st = discontinuity_counts st'
  /\ last_row st = last_row st'.
Proof. unfold sink. intros H. by inversion H. Qed.

Lemma progress_meter_sink cfg t i st : sink (progress_meter cfg t i st) = sink st.
Proof. unfold progress_meter. by destruct (shows_progress cfg). Qed.

Lemma group_check_sink st st' row :
  sink st = sink st' ->
  sink (fst (group_check st row)) = sink (fst (group_check st' row))
  /\ snd (group_check st row) = snd (group_check st' row).
Proof.
  intros H. destruct (sink_inv _ _ H) as (Ho & Hc & Hl).
  unfold group_check. rewrite <- Hl.
  destruct (last_row st) as [lr|]; [|done].
  destruct (truthy lr); [|done].
  destruct (getitem row "mmsi") as [a|[c|[]]]; simpl; try done;
    try (split; [unfold sink; simpl; congruence|done]).
  destruct (getitem lr "mmsi") as [b|[c|[]]]; simpl; try done;
    try (split; [unfold sink; simpl; congruence|done]).
  destruct (bool_decide (a <> b)); [|done].
  split; [unfold sink; simpl; congruence|done].
Qed.

Lemma emit_sink cfg fn st st' row :
  sink st = sink st' ->
  sink (fst (emit lib cfg fn st row)) = sink (fst (emit lib cfg fn st' row))
  /\ snd (emit lib cfg fn st row) = snd (emit lib cfg fn st' row).
Proof.
  intros H. destruct (sink_inv _ _ H) as (Ho & Hc & Hl).
  unfold emit.
  destruct (mem_string _ _).
  { destruct (csv_line fn row); simpl; [|done].
    split; [unfold sink; simpl; congruence|done]. }
  destruct (String.eqb _ "newline").
  { split; [unfold sink; simpl; congruence|done]. }
  destruct (String.eqb _ "frequency"); [|done].
  rewrite <- Hc.
  destruct (getitem row "mmsi") as [[s| |l]|]; try done;
    destruct (discontinuity_counts st !! _); simpl;
    (split; [unfold sink; simpl; congruence|done]).
Qed.

Lemma check_row_sink cfg fn st st' row :
  sink st = sink st' ->
  sink (fst (check_row lib cfg fn st row))
  = sink (fst (check_row lib cfg fn st' row))
  /\ snd (check_row lib cfg fn st row) = snd (check_row lib cfg fn st' row).
Proof.
  intros H. destruct (sink_inv _ _ H) as (Ho & Hc & Hl).
  unfold check_row. rewrite <- Hl.
  destruct (last_row st) as [lr|]; [|done].
  destruct (is_discontinuity lib cfg lr row) as [[|]|]; try done.
  by apply emit_sink.
Qed.

Lemma process_row_sink cfg n fn t t' i st st' row :
  sink st = sink st' ->
  sink (fst (process_row lib cfg fn t i st row))
  = sink (fst (process_row lib (with_skip_lines n cfg) fn t' i st' row))
  /\ snd (process_row lib cfg fn t i st row)
     = snd (process_row lib (with_skip_lines n cfg) fn t' i st' row).
Proof.
  intros H. unfold process_row.
  assert (H0 : sink (progress_meter cfg t i st)
               = sink (progress_meter (with_skip_lines n cfg) t' i st'))
    by (rewrite !progress_meter_sink; done).
  destruct (group_check_sink _ _ row H0) as [G1 G2].
  destruct (group_check (progress_meter cfg t i st) row) as [s1 h1].
  destruct (group_check (progress_meter _ t' i st') row) as [s2 h2].
  simpl in G1, G2. subst h2. destruct h1; [done|].
  change (check_row lib (with_skip_lines n cfg)) with (check_row lib cfg).
  destruct (check_row_sink cfg fn _ _ row G1) as [C1 C2].
  destruct (check_row lib cfg fn s1 row) as [u1 k1].
  destruct (check_row lib cfg fn s2 row) as [u2 k2].
  simpl in C1, C2. subst k2. destruct k1; [done|]. simpl.
  split; [|done]. destruct (sink_inv _ _ C1) as (? & ? & ?).
  unfold sink; simpl; congruence.
Qed.

Lemma scan_sink cfg n fn t t' i rs st st' :
  sink st = sink st' ->
  sink (fst (scan lib cfg fn t i rs st))
  = sink (fst (scan lib (with_skip_lines n cfg) fn t' i rs st'))
  /\ snd (scan lib cfg fn t i rs st)
     = snd (scan lib (with_skip_lines n cfg) fn t' i rs st').
Proof.
  revert i st st'. induction rs as [|r rs IH]; intros i st st' H; simpl.
  - done.
  - destruct (process_row_sink cfg n fn t t' i st st' r H) as [P1 P2].
    destruct (process_row lib cfg fn t i st r) as [s1 h1].
    destruct (process_row lib (with_skip_lines n cfg) fn t' i st' r) as [s2 h2].
    simpl in P1, P2. subst h2. destruct h1; [done|]. by apply IH.
Qed.

(** C10. Two runs that differ in the skip-lines value alone read the
    same records, write the same output, hold the same frequency counts
    and end the same way: the value reaches the progress total only. *)
Theorem skip_lines_does_not_reach_the_output cfg n lines :
  make_reader lib (with_skip_lines n cfg) lines = make_reader lib cfg lines
  /\ o_f (fst (main lib (with_skip_lines n cfg) lines))
     = o_f (fst (main lib cfg lines))
  /\ discontinuity_counts (fst (main lib (with_skip_lines n cfg) lines))
     = discontinuity_counts (fst (main lib cfg lines))
  /\ snd (main lib (with_skip_lines n cfg) lines) = snd (main lib cfg lines).
Proof.
  split; [reflexivity|].
  unfold main.
  change (validate (with_skip_lines n cfg)) with (validate cfg).
  destruct (validate cfg); simpl; [|done].
  change (make_reader lib (with_skip_lines n cfg) lines)
    with (make_reader lib cfg lines).
  destruct (make_reader lib cfg lines) as [rd|h]; [|done].
  change (write_schema lib (with_skip_lines n cfg))
    with (write_schema lib cfg).
  destruct (write_schema lib cfg (fieldnames rd) init_state) as [st0|h];
    [|done].
  destruct (scan_sink cfg n (fieldnames rd) (prog_total cfg lines)
              (prog_total (with_skip_lines n cfg) lines) O (rows rd)
              st0 st0 eq_refl) as [S1 S2].
  destruct (scan lib cfg _ _ _ _ st0) as [s1 h1].
  destruct (scan lib (with_skip_lines n cfg) _ _ _ _ st0) as [s2 h2].
  simpl in S1, S2. subst h2.
  destruct (sink_inv _ _ S1) as (Ho & Hc & Hl).
  destruct h1; [done|].
  destruct (at_end rd); [done|].
  unfold dump_frequency.
  change (output_product (with_skip_lines n cfg)) with (output_product cfg).
  destruct (String.eqb _ _); simpl; split_and!; congruence.
Qed.


(** ** Counting events *)

Lemma total_insert_fresh (counts : gmap pyval nat) k c :
  counts !! k = None -> total (<[k := c]> counts) = (c + total counts)%nat.
Proof.
  intros H. unfold total. rewrite map_fold_insert_L; [done| |done].
  intros; lia.
Qed.

Lemma total_insert_known (counts : gmap pyval nat) k c c' :
  counts !! k = Some c ->
  (total (<[k := c']> counts) + c = total counts + c')%nat.
Proof.
  intros H.
  rewrite <- (insert_delete_eq counts k c').
  rewrite <- (insert_delete_id counts k c H) at 2.
  rewrite !total_insert_fresh by apply lookup_delete_eq. lia.
Qed.

Lemma events_write s st : events (write s st) = S (events st).
Proof. unfold events. simpl. rewrite length_app. simpl. lia. Qed.

Lemma events_bump st k :
  events (set_count k (S (default O (discontinuity_counts st !! k))) st)
  = S (events st).
Proof.
  unfold events. simpl.
  destruct (discontinuity_counts st !! k) as [c|] eqn:E; simpl.
  - pose proof (total_insert_known _ k c (S c) E). lia.
  - rewrite total_insert_fresh by done. lia.
Qed.

Lemma mem_string_valid op :
  mem_string op valid_output_products = true ->
  op = "frequency" \/ op = "csv" \/ op = "csv-no-schema" \/ op = "newline".
Proof.
  unfold mem_string, valid_output_products. simpl.
  rewrite !orb_true_iff, !String.eqb_eq. intros [H|[H|[H|[H|H]]]]; auto.
  discriminate.
Qed.

(** What [emit] does for a row it can render. *)
Lemma emit_one_event cfg fn st row m :
  mem_string (output_product cfg) valid_output_products = true ->
  row !! field "mmsi" = Some m -> hashable m = true ->
  (mem_string (output_product cfg) ["csv"; "csv-no-schema"] = true ->
   exists line, csv_line fn row = inl line) ->
  exists st', emit lib cfg fn st row = (st', None)
    /\ one_event_for lib cfg fn row st st'
    /\ events st' = S (events st)
    /\ last_row st' = last_row st.
Proof.
  intros Hop Hm Hh Hline. unfold emit, one_event_for.
  destruct (mem_string (output_product cfg) ["csv"; "csv-no-schema"]) eqn:Ecsv.
  { destruct (Hline eq_refl) as [line Hl]. rewrite Hl.
    eexists; split; [done|]. split; [by exists line|].
    split; [apply events_write|done]. }
  destruct (String.eqb (output_product cfg) "newline") eqn:Enl.
  { eexists; split; [done|]. split; [done|].
    split; [apply events_write|done]. }
  assert (Hf : String.eqb (output_product cfg) "frequency" = true).
  { destruct (mem_string_valid _ Hop) as [E|[E|[E|E]]]; rewrite E in *;
      by vm_compute in Ecsv, Enl |- *. }
  rewrite Hf. unfold getitem. rewrite Hm.
  destruct m as [s| |l]; [| |done]; simpl.
  - destruct (discontinuity_counts st !! PStr s) as [c|] eqn:E.
    + exists (set_count (PStr s) (c + 1) st). split; [done|].
      split; [exists (PStr s); rewrite E; simpl;
              by replace (S c) with (c + 1)%nat by lia|].
      split; [|done].
      pose proof (events_bump st (PStr s)) as Hb. rewrite E in Hb.
      simpl in Hb. by replace (c + 1)%nat with (S c) by lia.
    + exists (set_count (PStr s) 1 st). split; [done|].
      split; [exists (PStr s); by rewrite E|].
      split; [|done].
      pose proof (events_bump st (PStr s)) as Hb. by rewrite E in Hb.
  - destruct (discontinuity_counts st !! PNone) as [c|] eqn:E.
    + exists (set_count PNone (c + 1) st). split; [done|].
      split; [exists PNone; rewrite E; simpl;
              by replace (S c) with (c + 1)%nat by lia|].
      split; [|done].
      pose proof (events_bump st PNone) as Hb. rewrite E in Hb.
      simpl in Hb. by replace (c + 1)%nat with (S c) by lia.
    + exists (set_count PNone 1 st). split; [done|].
      split; [exists PNone; by rewrite E|].
      split; [|done].
      pose proof (events_bump st PNone) as Hb. by rewrite E in Hb.
Qed.


(** ** The time test and the distance test *)

Lemma td_seconds_forward a b : 0 <= b - a -> td_seconds a b <= b - a.
Proof. unfold td_seconds. intros H. apply Z.mod_le; lia. Qed.

(** The time test as the code makes it: the pair is not flagged when the
    [seconds] attribute of the difference is over the threshold. *)
Lemma over_time_threshold_not_flagged cfg p r tp tr :
  row_datetime lib p = inl tp -> row_datetime lib r = inl tr ->
  time_threshold cfg < td_seconds tp tr ->
  is_discontinuity lib cfg p r = inl false.
Proof.
  intros Hp Hr Hlt. unfold is_discontinuity. rewrite Hp, Hr. simpl.
  destruct (Z.leb_spec (td_seconds tp tr) (time_threshold cfg)); [lia|done].
Qed.

Lemma close_and_far_is_discontinuity cfg p r tp tr gp gr :
  row_datetime lib p = inl tp -> row_datetime lib r = inl tr ->
  0 <= tr - tp <= time_threshold cfg ->
  make_point lib p = inl gp -> make_point lib r = inl gr ->
  (inject_Z (distance_threshold cfg) <= Distance lib gp gr)%Q ->
  is_discontinuity lib cfg p r = inl true.
Proof.
  intros Hp Hr Ht Hgp Hgr Hd. unfold is_discontinuity.
  rewrite Hp, Hr. simpl.
  pose proof (td_seconds_forward tp tr (proj1 Ht)).
  destruct (Z.leb_spec (td_seconds tp tr) (time_threshold cfg)); [|lia].
  rewrite Hgp, Hgr. simpl. unfold ret. f_equal. by apply Qle_bool_iff.
Qed.

Lemma same_group_stays st p r m :
  last_row st = Some p ->
  p !! field "mmsi" = Some m -> r !! field "mmsi" = Some m ->
  group_check st r = (st, None).
Proof.
  intros Hl Hp Hr. unfold group_check. rewrite Hl.
  rewrite (truthy_lookup p _ _ Hp). unfold getitem. rewrite Hr, Hp. simpl.
  rewrite bool_decide_false; [done|]. intros X. by apply X.
Qed.

(** What lines 512-534 do give.  For two consecutive records of one
    group whose local datetimes read [tp] and [tr] with
    [0 <= tr - tp <= time_threshold] (the later reading not before the
    earlier one on the local clock), at least [distance_threshold] apart,
    the later record [r] yields exactly one event, its own, provided the
    csv products can join its values. *)
Lemma close_in_time_far_apart_is_flagged_once
    cfg fn t i st p r m tp tr gp gr :
  mem_string (output_product cfg) valid_output_products = true ->
  last_row st = Some p ->
  p !! field "mmsi" = Some m -> r !! field "mmsi" = Some m ->
  hashable m = true ->
  row_datetime lib p = inl tp -> row_datetime lib r = inl tr ->
  0 <= tr - tp <= time_threshold cfg ->
  make_point lib p = inl gp -> make_point lib r = inl gr ->
  (inject_Z (distance_threshold cfg) <= Distance lib gp gr)%Q ->
  (mem_string (output_product cfg) ["csv"; "csv-no-schema"] = true ->
   exists line, csv_line fn r = inl line) ->
  exists st', process_row lib cfg fn t i st r = (st', None)
    /\ one_event_for lib cfg fn r st st'
    /\ events st' = S (events st)
    /\ last_row st' = Some r.
Proof.
  intros Hop Hl Hp Hr Hh Htp Htr Ht Hgp Hgr Hd Hline.
  unfold process_row.
  destruct (progress_meter_keeps cfg t i st) as (Ho & Hc & Hl0).
  set (st0 := progress_meter cfg t i st) in *.
  rewrite Hl in Hl0.
  rewrite (same_group_stays st0 p r m Hl0 Hp Hr).
  unfold check_row. rewrite Hl0.
  rewrite (close_and_far_is_discontinuity cfg p r tp tr gp gr) by done.
  destruct (emit_one_event cfg fn st0 r m Hop Hr Hh Hline)
    as (st2 & E & One & Ev & L).
  rewrite E. exists (set_last_row (Some r) st2).
  split; [done|]. split; [|split; [|done]].
  - unfold one_event_for in *. rewrite Ho, Hc in One. exact One.
  - unfold events in *. simpl. rewrite Ho, Hc in Ev. exact Ev.
Qed.


(** ** C3: the input format selector *)

(** C3. [newline] is a member of the validated input formats, and the
    reader construction knows [json] and [csv] only: a validated run
    with the [newline] selector raises [IOError] before it reads a
    record. *)
Theorem newline_input_format_raises_IOError cfg lines :
  validate cfg = true ->
  input_file_format cfg = "newline" ->
  mem_string "newline" valid_input_file_formats = true
  /\ main lib cfg lines = (init_state, Raise IOError).
Proof.
  intros Hv Hf. split; [reflexivity|].
  unfold main, make_reader. rewrite Hv, Hf. reflexivity.
Qed.

(** ** C9: a schema row and nothing else *)



(** ** C7: records without an mmsi or a timestamp *)

(** The loop never leaves with exit code 0: it returns 1 or raises. *)
Lemma bind_halt {A B} (m : res A) (k : A -> res B) h :
  bind m k = inr h -> m = inr h \/ exists a, m = inl a /\ k a = inr h.
Proof. destruct m as [a|h']; simpl; [eauto|]. intros H; left; congruence. Qed.

Lemma getitem_halt d k h : getitem d k = inr h -> h = Raise KeyError.
Proof.
  unfold getitem, ret, throw. destruct (d !! field k); intros H; by inversion H.
Qed.

Lemma py_int_halt v h : py_int v = inr h -> h <> Return 0.
Proof.
  unfold py_int, ret, throw. destruct v as [s| |l];
    [destruct (int_of_string s)|..]; intros H; by inversion H.
Qed.

Lemma fromtimestamp_halt n h : fromtimestamp lib n = inr h -> h <> Return 0.
Proof.
  unfold fromtimestamp, ret, throw.
  destruct (localtime lib n); [destruct (_ && _)|]; intros H; by inversion H.
Qed.

Lemma row_datetime_halt d h : row_datetime lib d = inr h -> h <> Return 0.
Proof.
  unfold row_datetime. intros H.
  apply bind_halt in H as [H|(v & _ & H)].
  { by rewrite (getitem_halt _ _ _ H). }
  apply bind_halt in H as [H|(n & _ & H)].
  - by eapply py_int_halt.
  - by eapply fromtimestamp_halt.
Qed.

Lemma make_point_halt d h : make_point lib d = inr h -> h <> Return 0.
Proof.
  unfold make_point. intros H.
  apply bind_halt in H as [H|(lon & _ & H)].
  { by rewrite (getitem_halt _ _ _ H). }
  apply bind_halt in H as [H|(lat & _ & H)].
  { by rewrite (getitem_halt _ _ _ H). }
  destruct (CreateGeometryFromWkt lib _); by inversion H.
Qed.

Lemma is_discontinuity_halt cfg p r h :
  is_discontinuity lib cfg p r = inr h -> h <> Return 0.
Proof.
  unfold is_discontinuity, bind. intros H.
  destruct (row_datetime lib p) as [tp|h1] eqn:E1;
    [|inversion H; subst; by eapply row_datetime_halt].
  destruct (row_datetime lib r) as [tr|h2] eqn:E2;
    [|inversion H; subst; by eapply row_datetime_halt].
  destruct (td_seconds tp tr <=? time_threshold cfg); [|done].
  destruct (make_point lib p) as [gp|h3] eqn:E3;
    [|inversion H; subst; by eapply make_point_halt].
  destruct (make_point lib r) as [gr|h4] eqn:E4;
    [|inversion H; subst; by eapply make_point_halt].
  done.
Qed.

Lemma getitems_halt d names h : getitems d names = inr h -> h <> Return 0.
Proof.
  revert h. induction names as [|k names IH]; intros h; simpl; [done|].
  unfold bind. destruct (getitem d k) eqn:E.
  - destruct (getitems d names); [done|]. intros H; inversion H; subst.
    by apply IH.
  - intros H; inversion H; subst. by rewrite (getitem_halt _ _ _ E).
Qed.

Lemma as_strings_halt vs h : as_strings vs = inr h -> h <> Return 0.
Proof.
  revert h. induction vs as [|v vs IH]; intros h; simpl; [done|].
  destruct v; try (intros H; inversion H; done).
  unfold bind. destruct (as_strings vs); [done|].
  intros H; inversion H; subst. by apply IH.
Qed.

Lemma csv_line_halt fn row h : csv_line fn row = inr h -> h <> Return 0.
Proof.
  unfold csv_line, bind. destruct fn as [names|]; [|intros H; by inversion H].
  destruct (getitems row names) eqn:E1;
    [|intros H; inversion H; subst; by eapply getitems_halt].
  destruct (as_strings l) eqn:E2; [done|].
  intros H; inversion H; subst. by eapply as_strings_halt.
Qed.

Lemma emit_halt cfg fn st row st' h :
  emit lib cfg fn st row = (st', Some h) -> h <> Return 0.
Proof.
  unfold emit. intros H.
  destruct (mem_string _ _).
  { destruct (csv_line fn row) eqn:E; inversion H; subst.
    by eapply csv_line_halt. }
  destruct (String.eqb _ "newline"); [by inversion H|].
  destruct (String.eqb _ "frequency"); [|by inversion H].
  destruct (getitem row "mmsi") as [[s| |l]|h'] eqn:E;
    try (destruct (discontinuity_counts st !! _); by inversion H);
    inversion H; subst; [done|].
  by rewrite (getitem_halt _ _ _ E).
Qed.

Lemma group_check_halt st row st' h :
  group_check st row = (st', Some h) -> h <> Return 0.
Proof.
  unfold group_check. intros H.
  destruct (last_row st) as [lr|]; [|by inversion H].
  destruct (truthy lr); [|by inversion H].
  destruct (bind _ _) as [[|]|[c|e]] eqn:E; try (by inversion H).
  - apply bind_halt in E as [E|(x & _ & E)];
      [by apply getitem_halt in E|].
    apply bind_halt in E as [E|(y & _ & E)];
      [by apply getitem_halt in E|done].
  - destruct e; by inversion H.
Qed.

Lemma check_row_halt cfg fn st row st' h :
  check_row lib cfg fn st row = (st', Some h) -> h <> Return 0.
Proof.
  unfold check_row. intros H.
  destruct (last_row st) as [lr|]; [|by inversion H].
  destruct (is_discontinuity lib cfg lr row) as [[|]|h'] eqn:E.
  - by eapply emit_halt.
  - by inversion H.
  - inversion H; subst. by eapply is_discontinuity_halt.
Qed.

Lemma process_row_halt cfg fn t i st row st' h :
  process_row lib cfg fn t i st row = (st', Some h) -> h <> Return 0.
Proof.
  unfold process_row. intros H.
  destruct (group_check _ row) as [st1 [h1|]] eqn:G.
  { inversion H; subst. by eapply group_check_halt. }
  destruct (check_row lib cfg fn st1 row) as [st2 [h2|]] eqn:C;
    inversion H; subst. by eapply check_row_halt.
Qed.

Lemma scan_halt cfg fn t i rs st st' h :
  scan lib cfg fn t i rs st = (st', Some h) -> h <> Return 0.
Proof.
  revert i st. induction rs as [|r rs IH]; intros i st; simpl; [done|].
  destruct (process_row lib cfg fn t i st r) as [st1 [h1|]] eqn:P.
  - intros H; inversion H; subst. by eapply process_row_halt.
  - apply IH.
Qed.

(** The second record of a defective pair stops the loop. *)
Lemma defective_pair_halts cfg fn t i st a b :
  last_row st = Some a ->
  b !! field "mmsi" = None
  \/ (a !! field "mmsi" = b !! field "mmsi"
      /\ (a !! field "timestamp" = None \/ b !! field "timestamp" = None)) ->
  exists st' h, process_row lib cfg fn t i st b = (st', Some h).
Proof.
  intros Hl Hdef. unfold process_row.
  destruct (progress_meter_keeps cfg t i st) as (_ & _ & Hl0).
  set (st0 := progress_meter cfg t i st) in *. rewrite Hl in Hl0.
  destruct (truthy a) eqn:T.
  2:{ apply falsy_empty in T. subst a.
      assert (G : group_check st0 b = (st0, None)).
      { unfold group_check. by rewrite Hl0. }
      rewrite G. unfold check_row. rewrite Hl0, is_discontinuity_empty.
      eauto. }
  destruct (b !! field "mmsi") as [m|] eqn:Eb.
  2:{ unfold group_check. rewrite Hl0, T. unfold getitem. rewrite Eb.
      simpl. eauto. }
  destruct Hdef as [?|[Hm Hts]]; [done|].
  rewrite (same_group_stays st0 a b m Hl0 Hm Eb).
  unfold check_row. rewrite Hl0.
  assert (exists h, is_discontinuity lib cfg a b = inr h) as [h Hh].
  { unfold is_discontinuity, bind.
    destruct Hts as [Ha|Hb].
    - unfold row_datetime at 1. unfold getitem. rewrite Ha. simpl. eauto.
    - destruct (row_datetime lib a); [|eauto].
      unfold row_datetime, getitem. rewrite Hb. simpl. eauto. }
  rewrite Hh. eauto.
Qed.

(** C7, as the code has it. The run fails when a record without an mmsi
    field has a predecessor in the stream, and when one of two
    consecutive records of the same mmsi lacks its timestamp field. *)
Theorem missing_mmsi_or_timestamp_stops_the_run cfg lines rd pre a b post :
  make_reader lib cfg lines = inl rd ->
  rows rd = pre ++ a :: b :: post ->
  b !! field "mmsi" = None
  \/ (a !! field "mmsi" = b !! field "mmsi"
      /\ (a !! field "timestamp" = None \/ b !! field "timestamp" = None)) ->
  snd (main lib cfg lines) <> Return 0.
Proof.
  intros Hrd Hrows Hdef. unfold main.
  destruct (validate cfg); simpl; [|done].
  rewrite Hrd.
  destruct (write_schema lib cfg (fieldnames rd) init_state) as [st0|h] eqn:W.
  2:{ simpl. revert W. unfold write_schema.
      destruct (String.eqb _ _); [|done].
      destruct (fieldnames rd); [done|]. intros H; by inversion H. }
  rewrite Hrows.
  replace (pre ++ a :: b :: post) with ((pre ++ [a]) ++ b :: post)
    by (by rewrite <- app_assoc).
  rewrite scan_app.
  destruct (scan lib cfg (fieldnames rd) (prog_total cfg lines) 0
                 (pre ++ [a]) st0) as [st1 [h|]] eqn:S1.
  { simpl. by eapply scan_halt. }
  apply scan_last in S1. rewrite last_snoc in S1. simpl.
  match goal with
  | |- context [process_row lib cfg ?fn ?t ?i st1 b] =>
      destruct (defective_pair_halts cfg fn t i st1 a b S1 Hdef)
        as (st2 & h & P)
  end.
  rewrite P. simpl. by eapply process_row_halt.
Qed.


(** ** C4: the rows of the reader *)

Lemma well_keyed_empty fn : well_keyed fn ∅.
Proof. intros k v H. by rewrite lookup_empty in H. Qed.

Lemma well_keyed_insert fn d k v :
  In k fn -> hashable v = true -> well_keyed fn d ->
  well_keyed fn (<[field k := v]> d).
Proof.
  intros Hk Hv Hd k' v' H.
  destruct (decide (k = k')) as [->|Hne].
  - rewrite lookup_insert_eq in H. inversion H; by subst.
  - rewrite lookup_insert_ne in H; [by apply Hd|].
    unfold field. congruence.
Qed.

Lemma well_keyed_rest fn d v : well_keyed fn d -> well_keyed fn (<[None := v]> d).
Proof.
  intros Hd k' v' H. rewrite lookup_insert_ne in H by done. by apply Hd.
Qed.

Lemma zip_fold_well_keyed fn names row d :
  (forall k, In k names -> In k fn) -> well_keyed fn d ->
  well_keyed fn
    (foldl (fun d kv => <[field (fst kv) := PStr (snd kv)]> d) d
           (zip names row)).
Proof.
  revert row d. induction names as [|k names IH]; intros row d Hin Hd;
    [done|].
  destruct row as [|x row]; [done|]. simpl. apply IH.
  - intros k' Hk'. apply Hin. by right.
  - apply well_keyed_insert; [apply Hin; by left|done|done].
Qed.

Lemma restval_fold_well_keyed fn names d :
  (forall k, In k names -> In k fn) -> well_keyed fn d ->
  well_keyed fn (foldl (fun d k => <[field k := PNone]> d) d names).
Proof.
  revert d. induction names as [|k names IH]; intros d Hin Hd; [done|].
  simpl. apply IH.
  - intros k' Hk'. apply Hin. by right.
  - apply well_keyed_insert; [apply Hin; by left|done|done].
Qed.

Lemma DictReader_row_well_keyed fn row : well_keyed fn (DictReader_row fn row).
Proof.
  unfold DictReader_row, dict_zip.
  assert (Hz : well_keyed fn
            (foldl (fun d kv => <[field (fst kv) := PStr (snd kv)]> d) ∅
                   (zip fn row)))
    by (apply zip_fold_well_keyed; [done|apply well_keyed_empty]).
  destruct (Nat.ltb _ _); [by apply well_keyed_rest|].
  destruct (Nat.ltb _ _); [|done].
  apply restval_fold_well_keyed; [|done].
  intros k Hk. apply list_elem_of_In. apply list_elem_of_In in Hk.
  eapply subseteq_drop, Hk.
Qed.

Lemma csv_DictReader_well_keyed parsed schema fn row :
  fieldnames (csv_DictReader parsed schema) = Some fn ->
  In row (rows (csv_DictReader parsed schema)) ->
  well_keyed fn row.
Proof.
  unfold csv_DictReader, DictReader_rows.
  destruct (truthy_schema schema) as [s|]; simpl.
  - intros H; inversion H; subst. rewrite in_map_iff.
    intros (x & <- & _). apply DictReader_row_well_keyed.
  - destruct parsed as [|header data]; simpl; [done|].
    intros H; inversion H; subst. rewrite in_map_iff.
    intros (x & <- & _). apply DictReader_row_well_keyed.
Qed.

Lemma chars_length k s : In k (chars s) -> String.length k = 1%nat.
Proof.
  induction s as [|c s IH]; simpl; [done|].
  intros [<-|H]; [done|by apply IH].
Qed.

(** With a schema on the command line, the reader takes the characters of
    the schema string for the field names: no record has a key that is
    not a single character, and the first line is a record like the
    others. *)
Lemma explicit_schema_keys_are_characters parsed s row name v :
  s <> EmptyString ->
  In row (rows (csv_DictReader parsed (Some s))) ->
  row !! field name = Some v ->
  String.length name = 1%nat.
Proof.
  intros Hs Hrow Hv.
  assert (Hf : fieldnames (csv_DictReader parsed (Some s)) = Some (chars s)).
  { unfold csv_DictReader. by destruct s. }
  destruct (csv_DictReader_well_keyed _ _ _ _ Hf Hrow _ _ Hv) as [Hin _].
  by eapply chars_length.
Qed.


(** ** C6: the row products against the frequency product *)















(** *** A run that succeeds, taken apart *)

Lemma make_reader_halt cfg lines h :
  make_reader lib cfg lines = inr h -> h <> Return 0.
Proof.
  unfold make_reader, NewlineJSONDictReader.
  destruct (String.eqb _ "json").
  - destruct (json_loads lib _); intros H; by inversion H.
  - destruct (String.eqb _ "csv"); intros H; by inversion H.
Qed.

Lemma main_success cfg lines :
  snd (main lib cfg lines) = Return 0 ->
  exists rd st0 st,
    validate cfg = true
    /\ make_reader lib cfg lines = inl rd
    /\ write_schema lib cfg (fieldnames rd) init_state = inl st0
    /\ scan lib cfg (fieldnames rd) (prog_total cfg lines) O (rows rd) st0
       = (st, None)
    /\ at_end rd = None
    /\ fst (main lib cfg lines) = dump_frequency lib cfg st.
Proof.
  unfold main.
  destruct (validate cfg); simpl; [|done].
  destruct (make_reader lib cfg lines) as [rd|h] eqn:M; simpl.
  2:{ intros ->. by apply make_reader_halt in M. }
  destruct (write_schema lib cfg (fieldnames rd) init_state) as [st0|h] eqn:W;
    simpl.
  2:{ intros ->. revert W. unfold write_schema.
      destruct (String.eqb _ _); [|done]. by destruct (fieldnames rd). }
  destruct (scan lib cfg _ _ _ _ st0) as [st [h|]] eqn:S; simpl.
  { intros ->. by apply scan_halt in S. }
  destruct (at_end rd) eqn:E; simpl; [done|].
  intros _. by exists rd, st0, st.
Qed.





Lemma validated_reader cfg lines rd :
  validate cfg = true ->
  make_reader lib cfg lines = inl rd ->
  rd = csv_DictReader (csv_reader lib lines) (input_schema cfg).
Proof.
  unfold validate, make_reader. rewrite !andb_true_iff.
  intros [_ Hf]. unfold mem_string, valid_input_file_formats in Hf.
  simpl in Hf. rewrite !orb_true_iff, !String.eqb_eq in Hf.
  destruct Hf as [Hf|[Hf|Hf]]; [| |done]; rewrite Hf; simpl.
  - intros H. by inversion H.
  - done.
Qed.





End Facts.

(** * Further properties of the reader, the scan and the command line *)

Section ReaderFacts.

(** ** Rows and the csv products *)












End ReaderFacts.

Section ScanFacts.

Variable lib : library.

(** ** What the loop does to the output and the counts *)

Lemma process_row_out (P : list string * gmap pyval nat ->
                           list string * gmap pyval nat -> Prop)
    cfg fn t i st row :
  (forall a, P a a) ->
  (forall st1 st2 h, emit lib cfg fn st1 row = (st2, h) ->
                     P (out st1) (out st2)) ->
  P (out st) (out (fst (process_row lib cfg fn t i st row))).
Proof.
  intros Hrefl Hemit. unfold process_row.
  destruct (progress_meter_keeps cfg t i st) as (Ho & Hc & _).
  set (st0 := progress_meter cfg t i st) in *.
  destruct (group_check st0 row) as [st1 [h|]] eqn:G;
    destruct (group_check_keeps _ _ _ _ G) as [Go Gc].
  { simpl. replace (out st1) with (out st); [done|].
    unfold out. congruence. }
  assert (E : out st1 = out st) by (unfold out; congruence).
  rewrite <- E. unfold check_row.
  destruct (last_row st1) as [lr|]; [|simpl; apply Hrefl].
  destruct (is_discontinuity lib cfg lr row) as [[|]|h];
    [|simpl; apply Hrefl..].
  destruct (emit lib cfg fn st1 row) as [st2 [h|]] eqn:Em; simpl.
  - by eapply Hemit.
  - change (out (set_last_row (Some row) st2)) with (out st2).
    by eapply Hemit.
Qed.

Lemma scan_out (P : list string * gmap pyval nat ->
                    list string * gmap pyval nat -> Prop)
    cfg fn t i rs st :
  (forall a, P a a) ->
  (forall a b c, P a b -> P b c -> P a c) ->
  (forall st1 st2 h row, emit lib cfg fn st1 row = (st2, h) ->
                         P (out st1) (out st2)) ->
  P (out st) (out (fst (scan lib cfg fn t i rs st))).
Proof.
  intros Hrefl Htrans Hemit. revert i st.
  induction rs as [|r rs IH]; intros i st; simpl; [apply Hrefl|].
  pose proof (process_row_out P cfg fn t i st r Hrefl
                (fun st1 st2 h => Hemit st1 st2 h r)) as Hp.
  destruct (process_row lib cfg fn t i st r) as [st' [h|]]; simpl in *;
    [done|].
  eapply Htrans; [exact Hp|apply IH].
Qed.

(** What one call of [emit] can do: append to the output, raise a count,
    and make at most one event. *)
Lemma emit_grows cfg fn st row st2 h :
  emit lib cfg fn st row = (st2, h) ->
  o_f st `prefix_of` o_f st2
  /\ (forall k, (default O (discontinuity_counts st !! k)
                 <= default O (discontinuity_counts st2 !! k))%nat)
  /\ (events st <= events st2 <= S (events st))%nat.
Proof.
  unfold emit. intros H.
  assert (Hsame : o_f st `prefix_of` o_f st
                  /\ (forall k, (default O (discontinuity_counts st !! k)
                                 <= default O (discontinuity_counts st !! k))%nat)
                  /\ (events st <= events st <= S (events st))%nat).
  { split; [done|]. split; [done|lia]. }
  assert (Hwrite : forall s,
             o_f st `prefix_of` o_f (write s st)
             /\ (forall k, (default O (discontinuity_counts st !! k)
                            <= default O (discontinuity_counts (write s st) !! k))%nat)
             /\ (events st <= events (write s st) <= S (events st))%nat).
  { intros s. split; [by apply prefix_app_r|]. split; [done|].
    rewrite events_write. lia. }
  assert (Hcount : forall k,
             o_f st `prefix_of`
               o_f (set_count k (S (default O (discontinuity_counts st !! k))) st)
             /\ (forall k', (default O (discontinuity_counts st !! k')
                             <= default O
                                  (discontinuity_counts
                                     (set_count k
                                        (S (default O
                                              (discontinuity_counts st !! k)))
                                        st) !! k'))%nat)
             /\ (events st
                 <= events (set_count k
                              (S (default O (discontinuity_counts st !! k))) st)
                 <= S (events st))%nat).
  { intros k. split; [done|]. split; [|rewrite events_bump; lia].
    intros k'. simpl. destruct (decide (k = k')) as [->|Hne].
    - rewrite lookup_insert_eq. simpl. lia.
    - by rewrite lookup_insert_ne. }
  destruct (mem_string _ _).
  { destruct (csv_line fn row); inversion H; subst; [apply Hwrite|done]. }
  destruct (String.eqb _ "newline"); [inversion H; subst; apply Hwrite|].
  destruct (String.eqb _ "frequency"); [|inversion H; by subst].
  destruct (getitem row "mmsi") as [[s| |l]|h'];
    [| |inversion H; by subst..];
    destruct (discontinuity_counts st !! _) as [c|] eqn:E;
    inversion H; subst.
  - specialize (Hcount (PStr s)). rewrite E in Hcount. simpl in Hcount.
    by replace (c + 1)%nat with (S c) by lia.
  - specialize (Hcount (PStr s)). by rewrite E in Hcount.
  - specialize (Hcount PNone). rewrite E in Hcount. simpl in Hcount.
    by replace (c + 1)%nat with (S c) by lia.
  - specialize (Hcount PNone). by rewrite E in Hcount.
Qed.

(** X3. The scan only adds: at every point of the loop, and however it
    ends, what was written before is a prefix of the output, and no count
    has gone down. *)
Theorem scan_only_appends_and_counts_up cfg fn t i rs st :
  o_f st `prefix_of` o_f (fst (scan lib cfg fn t i rs st))
  /\ forall k,
       (default O (discontinuity_counts st !! k)
        <= default O (discontinuity_counts
                        (fst (scan lib cfg fn t i rs st)) !! k))%nat.
Proof.
  apply (scan_out
           (fun a b => fst a `prefix_of` fst b
                       /\ forall k, (default O (snd a !! k)
                                     <= default O (snd b !! k))%nat)
           cfg fn t i rs st).
  - intros a. done.
  - intros a b c [P1 C1] [P2 C2]. split; [by etrans|].
    intros k. specialize (C1 k). specialize (C2 k). lia.
  - intros st1 st2 h row Hem.
    destruct (emit_grows _ _ _ _ _ _ Hem) as (? & ? & _). done.
Qed.

Lemma process_row_events cfg fn t i st row :
  (events st <= events (fst (process_row lib cfg fn t i st row))
   <= S (events st))%nat.
Proof.
  apply (process_row_out
           (fun a b => (length (fst a) + total (snd a)
                        <= length (fst b) + total (snd b)
                        <= S (length (fst a) + total (snd a)))%nat)
           cfg fn t i st row).
  - intros a. lia.
  - intros st1 st2 h Hem.
    destruct (emit_grows _ _ _ _ _ _ Hem) as (_ & _ & ?). done.
Qed.

Lemma scan_events cfg fn t i rs st :
  (events (fst (scan lib cfg fn t i rs st)) <= events st + length rs)%nat.
Proof.
  revert i st. induction rs as [|r rs IH]; intros i st; simpl; [lia|].
  pose proof (process_row_events cfg fn t i st r) as Hp.
  destruct (process_row lib cfg fn t i st r) as [st' [h|]]; simpl in *;
    [lia|].
  specialize (IH (S i) st'). lia.
Qed.

(** X4. Each record makes at most one event, and the record that opens
    the stream makes none: a scan of [n] records that starts without a
    previous record ends with at most [n - 1] events more than it started
    with, whether it completes or stops on the way. *)
Theorem scan_flags_at_most_all_but_the_first cfg fn t i rs st :
  (events (fst (scan lib cfg fn t i rs st)) <= events st + length rs)%nat
  /\ (last_row st = None ->
      (events (fst (scan lib cfg fn t i rs st))
       <= events st + pred (length rs))%nat).
Proof.
  split; [apply scan_events|].
  intros Hl. destruct rs as [|r rs]; simpl; [lia|].
  pose proof (process_row_new_group lib cfg fn t i st r) as Hn.
  destruct (process_row lib cfg fn t i st r) as [st' [h|]] eqn:P;
    simpl in *.
  - destruct Hn as [Ho Hc]; [intros p Hp; congruence|].
    unfold events. rewrite Ho, Hc. lia.
  - destruct Hn as [Ho Hc]; [intros p Hp; congruence|].
    pose proof (scan_events cfg fn t (S i) rs st') as Hs.
    unfold events in *. rewrite Ho, Hc in Hs. lia.
Qed.

(** ** The products keep apart *)




(** ** The time test *)

(** X6. The time test looks at the two local datetimes through the
    seconds of their difference only: a later record whose local datetime
    is moved by whole days, forwards or backwards, gets the verdict the
    pair had.  (In a zone whose UTC offset is the same at both instants
    that is a timestamp moved by [86400 * days]; across a daylight-saving
    change it is not.) *)
Theorem whole_days_do_not_change_the_verdict cfg p r r' t days :
  row_datetime lib r = inl t ->
  row_datetime lib r' = inl (t + 86400 * days) ->
  make_point lib r' = make_point lib r ->
  is_discontinuity lib cfg p r' = is_discontinuity lib cfg p r.
Proof.
  intros Hr Hr' Hp. unfold is_discontinuity. rewrite Hr, Hr', Hp.
  destruct (row_datetime lib p) as [tp|h]; simpl; [|done].
  replace (td_seconds tp (t + 86400 * days)) with (td_seconds tp t); [done|].
  unfold td_seconds.
  replace (t + 86400 * days - tp) with (t - tp + days * 86400) by lia.
  by rewrite Z_mod_plus_full.
Qed.

(** X7. A time threshold of 86399 seconds or more switches the time test
    off: the seconds of a difference never exceed 86399, so every pair
    whose timestamps decode goes to the distance test, and the verdict is
    that of the distance test. *)
Theorem a_day_long_threshold_leaves_the_distance_test cfg p r tp tr gp gr :
  86399 <= time_threshold cfg ->
  row_datetime lib p = inl tp -> row_datetime lib r = inl tr ->
  make_point lib p = inl gp -> make_point lib r = inl gr ->
  is_discontinuity lib cfg p r
  = inl (Qle_bool (inject_Z (distance_threshold cfg)) (Distance lib gp gr)).
Proof.
  intros Hth Hp Hr Hgp Hgr. unfold is_discontinuity.
  rewrite Hp, Hr. simpl.
  assert (0 <= td_seconds tp tr < 86400)
    by (unfold td_seconds; apply Z.mod_pos_bound; lia).
  destruct (Z.leb_spec (td_seconds tp tr) (time_threshold cfg)); [|lia].
  by rewrite Hgp, Hgr.
Qed.

(** ** The console *)










(** ** Successful runs read csv *)

(** X10. Every run that ends with exit code 0 has read its input with
    [csv.DictReader]: the [json] selector does not pass validation and the
    [newline] selector passes it but builds no reader, so
    [NewlineJSONDictReader] is never used. *)
Theorem a_successful_run_read_csv cfg lines :
  snd (main lib cfg lines) = Return 0 ->
  input_file_format cfg = "csv"
  /\ make_reader lib cfg lines
     = inl (csv_DictReader (csv_reader lib lines) (input_schema cfg)).
Proof.
  intros HR.
  destruct (main_success lib _ _ HR)
    as (rd & st0 & st & Hv & Hrd & _).
  pose proof (validated_reader lib _ _ _ Hv Hrd) as ->.
  split; [|done].
  revert Hv Hrd. unfold validate, make_reader. rewrite !andb_true_iff.
  intros [_ Hf]. unfold mem_string, valid_input_file_formats in Hf.
  simpl in Hf. rewrite !orb_true_iff, !String.eqb_eq in Hf.
  destruct Hf as [Hf|[Hf|Hf]]; [done| |done].
  rewrite Hf. simpl. done.
Qed.

(** ** Input without an mmsi column *)




End ScanFacts.

Section ArgsFacts.

Variable sys : system.
Variable lib : library.

(** ** The argument loop *)



Lemma arg_error_set_arg_error L :
  Args.arg_error (Args.set_arg_error true L) = true.
Proof. by destruct L. Qed.


(** X11. The options are read from left to right, and a prefix of the
    arguments that is read without an error has had its whole effect when
    it ends: the loop goes on with the rest from the locals the prefix
    left, whatever the rest is. *)
Theorem parse_args_after_a_clean_prefix pre rest L L1 :
  Args.parse_args sys pre L = Args.Parsed L1 ->
  Args.arg_error L1 = false ->
  Args.parse_args sys (pre ++ rest) L = Args.parse_args sys rest L1.
Proof.
  intros Hpre Herr. revert L Hpre.
  assert (Hfail : forall L, Args.Parsed (Args.set_arg_error true L)
                            <> Args.Parsed L1).
  { intros L H. inversion H; subst.
    by rewrite arg_error_set_arg_error in Herr. }
  remember (length pre) as n eqn:Hn.
  assert (Hlen : (length pre <= n)%nat) by lia. clear Hn.
  revert pre Hlen. induction n as [|n IH]; intros pre Hlen L.
  { destruct pre; [|simpl in Hlen; lia]. simpl. intros H. by inversion H. }
  destruct pre as [|arg p]; [simpl; intros H; by inversion H|].
  cbn [Args.parse_args app].
  repeat first
    [ match goal with
      | |- context [if ?b then _ else _] => destruct b eqn:?
      | |- context [match ?l with [] => _ | _ :: _ => _ end] =>
          is_var l; destruct l; cbn [app]
      | |- context [match ?f <$> int_of_string ?v with _ => _ end] =>
          destruct (int_of_string v) eqn:?;
          cbn beta iota delta [fmap option_fmap option_map]
      | |- context [match ?s with EmptyString => _ | String _ _ => _ end] =>
          is_var s; destruct s
      end ];
    try (intros H; by inversion H);
    try (intros H; exfalso; by eapply Hfail);
    try (apply IH; simpl in Hlen; lia);
    try (match goal with
         | |- Args.parse_args _ (?a :: ?q) _ = _ -> _ =>
             apply (IH (a :: q)); simpl in Hlen |- *; lia
         end).
Qed.

(** ** Arguments that end [main] at once *)



Lemma main_argv_rejects args :
  args <> [] ->
  match Args.parse_args sys args Args.initial with
  | Args.Exit c => c = 1
  | Args.Parsed L => Args.arg_error L = true
  end ->
  main_argv sys lib args = (init_state, Return 1).
Proof.
  intros Hne H. unfold main_argv. destruct args as [|a args]; [done|].
  destruct (Args.parse_args sys (a :: args) Args.initial) as [c|L];
    [by subst|].
  unfold Args.bail. by rewrite H.
Qed.




Lemma parse_help h rest L :
  In h help_options -> Args.parse_args sys (h :: rest) L = Args.Exit 1.
Proof.
  intros Hin. unfold help_options in Hin. simpl in Hin.
  repeat (destruct Hin as [<-|Hin]; [reflexivity|]). done.
Qed.





(** X15. Without arguments, and at a help or usage option met after
    arguments read without an error, [main] returns 1 at once: the
    arguments after the option are not looked at, and nothing is
    validated, read or written. *)
Theorem help_returns_1 pre h rest L1 :
  main_argv sys lib [] = (init_state, Return 1)
  /\ (Args.parse_args sys pre Args.initial = Args.Parsed L1 ->
      Args.arg_error L1 = false ->
      In h help_options ->
      main_argv sys lib (pre ++ h :: rest) = (init_state, Return 1)).
Proof.
  split; [reflexivity|].
  intros Hpre Herr Hin. apply main_argv_rejects; [by destruct pre|].
  rewrite (parse_args_after_a_clean_prefix pre _ _ L1 Hpre Herr).
  by rewrite parse_help.
Qed.



Lemma lower_ascii_idem c : lower_ascii (lower_ascii c) = lower_ascii c.
Proof. destruct c as [[] [] [] [] [] [] [] []]; reflexivity. Qed.

Lemma lower_idem s : lower (lower s) = lower s.
Proof.
  induction s as [|c s IH]; simpl; [done|].
  by rewrite lower_ascii_idem, IH.
Qed.

(** X18. The output product is read without regard to case: after
    arguments read without an error, [-op] with a value and [-op] with the
    value in lower case give the same run. *)
Theorem the_output_product_ignores_case pre flag v rest L1 :
  Args.parse_args sys pre Args.initial = Args.Parsed L1 ->
  Args.arg_error L1 = false ->
  In flag ["-op"; "-output-product"] ->
  main_argv sys lib (pre ++ flag :: v :: rest)
  = main_argv sys lib (pre ++ flag :: lower v :: rest).
Proof.
  intros Hpre Herr Hin. unfold main_argv.
  rewrite !(parse_args_after_a_clean_prefix pre _ _ L1 Hpre Herr).
  assert (E : Args.parse_args sys (flag :: v :: rest) L1
              = Args.parse_args sys (flag :: lower v :: rest) L1).
  { simpl in Hin. destruct Hin as [<-|[<-|?]]; [| |done];
      cbn [Args.parse_args]; simpl; by rewrite lower_idem. }
  rewrite E. by destruct pre.
Qed.

End ArgsFacts.

(** * Concrete runs *)

Import Sample.

(** C1. The detector reads [td.seconds], the seconds of the difference
    without its days: two points a day and ten seconds apart pass the time
    test of a one-hour threshold (the attribute is 10), and the later one
    is written as a discontinuity. *)
Theorem a_day_and_ten_seconds_apart_is_flagged :
  time_threshold defaults < Z.abs (86410 - 0)
  /\ td_seconds 0 86410 = 10
  /\ o_f (fst (run defaults day_gap_file))
     = [line header4; line "1,86410,5,5"]
  /\ snd (run defaults day_gap_file) = Return 0.
Proof. vm_compute. repeat split. Qed.

(** The same attribute for a pair out of time order: 100 seconds back is
    read as 86300 seconds, and the pair is not flagged. *)
Lemma out_of_order_pair_is_not_flagged :
  Z.abs (0 - 100) <= time_threshold defaults
  /\ td_seconds 100 0 = 86300
  /\ o_f (fst (run defaults backwards_file)) = [line header4]
  /\ snd (run defaults backwards_file) = Return 0.
Proof. vm_compute. repeat split; discriminate. Qed.

(** C2. A pair of one vessel, half an hour and seven units apart, whose
    later row lacks a column: both tests of the claim hold and the pair is
    flagged, but the csv product raises [TypeError] on the missing value
    (line 524) before it writes anything for the row.  The output holds
    the header alone and the run ends with the exception: no event is
    emitted for the later record. *)
Theorem a_short_flagged_row_is_not_written :
  let fn := ["mmsi"; "timestamp"; "longitude"; "latitude"; "name"] in
  let p := DictReader_row fn ["1"; "0"; "0"; "0"; "a"] in
  let r := DictReader_row fn ["1"; "1800"; "5"; "5"] in
  p !! field "mmsi" = r !! field "mmsi"
  /\ row_datetime lib p = inl 0 /\ row_datetime lib r = inl 1800
  /\ Z.abs (1800 - 0) <= time_threshold defaults
  /\ make_point lib p = inl (0, 0) /\ make_point lib r = inl (5, 5)
  /\ Qle_bool (inject_Z (distance_threshold defaults))
              (Distance lib (0, 0) (5, 5)) = true
  /\ rows (csv_DictReader (csv_reader lib short_row_file) None) = [p; r]
  /\ run defaults short_row_file
     = (write (line "mmsi,timestamp,longitude,latitude,name")
              (after p),
        Raise TypeError).
Proof.
  cbv zeta. repeat split; try reflexivity.
  vm_compute. discriminate.
Qed.

(** The row the csv product cannot write is written by the newline
    product, and counted by the frequency product. *)
Lemma the_other_products_take_the_short_row :
  let fn := ["mmsi"; "timestamp"; "longitude"; "latitude"; "name"] in
  let r := DictReader_row fn ["1"; "1800"; "5"; "5"] in
  o_f (fst (run (with_product "newline" defaults) short_row_file))
  = [json_dumps lib r +:+ linesep lib]
  /\ snd (run (with_product "newline" defaults) short_row_file) = Return 0
  /\ discontinuity_counts
       (fst (run (with_product "frequency" defaults) short_row_file))
     !! PStr "1" = Some 1%nat
  /\ snd (run (with_product "frequency" defaults) short_row_file) = Return 0.
Proof. cbv zeta. repeat split; vm_compute; reflexivity. Qed.

(** The time test reads the clock of the machine.  On a machine set to
    New York a pair in time order, half an hour and seven units apart,
    that straddles the end of daylight-saving time has its later local
    datetime half an hour before the earlier one; [td.seconds] is 84600
    and the pair is not flagged.  The same file is flagged on a machine
    set to UTC. *)
Lemma a_pair_across_the_end_of_daylight_saving_is_not_flagged :
  let p := DictReader_row fields4 ["1"; "1414906200"; "0"; "0"] in
  let r := DictReader_row fields4 ["1"; "1414908000"; "5"; "5"] in
  0 <= 1414908000 - 1414906200 <= time_threshold defaults
  /\ row_datetime (lib_in new_york) p = inl 1414891800
  /\ row_datetime (lib_in new_york) r = inl 1414890000
  /\ td_seconds 1414891800 1414890000 = 84600
  /\ is_discontinuity (lib_in new_york) defaults p r = inl false
  /\ o_f (fst (main (lib_in new_york) defaults fall_back_file))
     = [line header4]
  /\ snd (main (lib_in new_york) defaults fall_back_file) = Return 0
  /\ is_discontinuity (lib_in utc) defaults p r = inl true
  /\ o_f (fst (main (lib_in utc) defaults fall_back_file))
     = [line header4; line "1,1414908000,5,5"].
Proof.
  cbv zeta. repeat split; try (vm_compute; reflexivity);
    vm_compute; discriminate.
Qed.

(** On the sample pair: [point_b] follows [point_a] by half an hour and
    seven units, and is written once by the csv product. *)
Lemma close_in_time_far_apart_on_the_sample_pair :
  exists st',
    process_row lib defaults (Some fields4) 0 1 (after point_a) point_b
    = (st', None)
    /\ one_event_for lib defaults (Some fields4) point_b (after point_a) st'
    /\ events st' = S (events (after point_a))
    /\ last_row st' = Some point_b.
Proof.
  apply (close_in_time_far_apart_is_flagged_once lib defaults (Some fields4)
           0 1%nat (after point_a) point_a point_b (PStr "1") 0 1800
           (0, 0) (5, 5)); try reflexivity.
  - vm_compute. split; discriminate.
  - vm_compute. discriminate.
  - intros _. eexists. reflexivity.
Defined.

(** C8 on the sample pair. *)
Lemma last_row_witness :
  last_row (fst (scan lib defaults (Some fields4) 0 0
                      ([point_a] ++ [point_b]) init_state))
  = Some point_b.
Proof.
  apply (last_row_is_the_record_just_processed lib defaults (Some fields4)
           0 0%nat [point_a] point_b init_state).
  reflexivity.
Defined.

(** C5 on a record of another vessel at the place and time of [point_b]. *)
Lemma first_record_of_a_group_witness :
  no_event (after point_a)
    (fst (process_row lib defaults (Some fields4) 0 1 (after point_a)
                      point_other)).
Proof.
  apply (first_record_of_a_group_is_never_flagged lib defaults (Some fields4)
           0 0%nat 1%nat [point_a] point_other init_state (after point_a)).
  - reflexivity.
  - reflexivity.
  - intros p Hp. simpl in Hp. inversion Hp; subst.
    vm_compute. discriminate.
Defined.

(** C3 at the defaults with [-ff newline], on the sample track. *)
Lemma newline_input_format_witness :
  mem_string "newline" valid_input_file_formats = true
  /\ run (with_input_file_format "newline" defaults) track_file
     = (init_state, Raise IOError).
Proof.
  apply (newline_input_format_raises_IOError lib
           (with_input_file_format "newline" defaults) track_file);
    reflexivity.
Defined.

(** C4. A schema given on the command line reaches [csv.DictReader] as one
    string, and the reader takes its characters for the field names: the
    record of the line [1,0,0,0] under the schema
    [mmsi,timestamp,longitude,latitude] has no key [mmsi], [timestamp],
    [longitude] or [latitude]; its keys are single characters, all of them
    mapped to [None], and the header written for the csv product is the
    schema character by character.  The first line is a record, not a
    schema row; with a second record the run returns 1 on the missing
    [mmsi] key. *)
Theorem explicit_schema_is_read_character_by_character :
  let rd := csv_DictReader (csv_reader lib [line "1,0,0,0"]) (Some header4) in
  fieldnames rd = Some (chars header4)
  /\ (exists row,
        rows rd = [row]
        /\ row !! field "mmsi" = None
        /\ row !! field "timestamp" = None
        /\ row !! field "longitude" = None
        /\ row !! field "latitude" = None
        /\ row !! field "m" = Some PNone
        /\ row !! field "s" = Some PNone
        /\ row !! field "i" = Some PNone
        /\ row !! field "," = Some PNone)
  /\ hd_error (o_f (fst (run (with_input_schema (Some header4) defaults)
                             [line "1,0,0,0"])))
     = Some (line "m,m,s,i,,,t,i,m,e,s,t,a,m,p,,,l,o,n,g,i,t,u,d,e,,,l,a,t,i,t,u,d,e")
  /\ snd (run (with_input_schema (Some header4) defaults) track_data)
     = Return 1.
Proof.
  cbv zeta. split; [reflexivity|]. split; [|split; reflexivity].
  eexists. repeat split; reflexivity.
Qed.



(** C7 fails as stated: a lone record without an mmsi field, and two
    records of two vessels without a timestamp field, the last record
    included, go through with exit code 0. *)
Lemma records_without_mmsi_or_timestamp_pass :
  (exists r, rows (csv_DictReader (csv_reader lib no_mmsi_file) None) = [r]
             /\ r !! field "mmsi" = None)
  /\ snd (run defaults no_mmsi_file) = Return 0
  /\ (exists a b,
        rows (csv_DictReader (csv_reader lib no_timestamp_file) None) = [a; b]
        /\ a !! field "timestamp" = None /\ b !! field "timestamp" = None)
  /\ snd (run defaults no_timestamp_file) = Return 0.
Proof.
  split; [eexists; split; reflexivity|].
  split; [reflexivity|]. split; [|reflexivity].
  eexists. eexists. repeat split; reflexivity.
Qed.

(** C7 on two records without an mmsi column. *)
Lemma missing_mmsi_witness : snd (run defaults no_mmsi_pair_file) <> Return 0.
Proof.
  apply (missing_mmsi_or_timestamp_stops_the_run lib defaults no_mmsi_pair_file
           (csv_DictReader (csv_reader lib no_mmsi_pair_file) None) []
           (DictReader_row ["timestamp"; "longitude"; "latitude"]
                           ["0"; "0"; "0"])
           (DictReader_row ["timestamp"; "longitude"; "latitude"]
                           ["1800"; "5"; "5"]) []).
  - reflexivity.
  - reflexivity.
  - left. reflexivity.
Defined.



(** The skip-lines value does reach the console: the progress total of a
    run without [-q] moves with it, and the output does not. *)
Lemma skip_lines_moves_the_progress_total :
  console (fst (run verbose track_file))
  = [Progress 0 3; Progress 1 3; Progress 2 3]
  /\ console (fst (run (with_skip_lines 2 verbose) track_file))
     = [Progress 0 1; Progress 1 1; Progress 2 1]
  /\ o_f (fst (run (with_skip_lines 2 verbose) track_file))
     = o_f (fst (run verbose track_file)).
Proof. vm_compute. repeat split. Qed.

(** * Instances of the further properties *)



(** X4 on the sample pair, from the initial state. *)
Lemma scan_flags_at_most_all_but_the_first_witness :
  (events (fst (scan lib defaults (Some fields4) 0 0 [point_a; point_b]
                     init_state))
   <= events init_state + pred (length [point_a; point_b]))%nat.
Proof.
  apply (proj2 (scan_flags_at_most_all_but_the_first lib defaults
                  (Some fields4) 0 0%nat [point_a; point_b] init_state)).
  reflexivity.
Defined.


(** X6 on [point_b] and the same point a day later. *)
Lemma whole_days_witness :
  is_discontinuity lib defaults point_a point_b_next_day
  = is_discontinuity lib defaults point_a point_b.
Proof.
  apply (whole_days_do_not_change_the_verdict lib defaults point_a point_b
           point_b_next_day 1800 1); reflexivity.
Defined.

(** Whole days of the local clock are not whole days of timestamps
    where the zone changes its offset in between.  On a machine set to
    New York, a later record moved by 86400 seconds across the end of
    daylight-saving time has its local datetime moved by a day less an
    hour: the pair that was flagged is not flagged any more.  On a
    machine set to UTC the verdict stays. *)
Lemma a_day_of_timestamps_across_daylight_saving_changes_the_verdict :
  row_datetime (lib_in new_york) half_an_hour_later = inl 1414809000
  /\ row_datetime (lib_in new_york) a_day_and_half_an_hour_later
     = inl (1414809000 + 86400 - 3600)
  /\ is_discontinuity (lib_in new_york) defaults
       before_fall_back half_an_hour_later = inl true
  /\ is_discontinuity (lib_in new_york) defaults
       before_fall_back a_day_and_half_an_hour_later = inl false
  /\ is_discontinuity (lib_in utc) defaults
       before_fall_back a_day_and_half_an_hour_later = inl true.
Proof. repeat split; vm_compute; reflexivity. Qed.

(** X7 on the sample pair with a threshold of one day. *)
Lemma a_day_long_threshold_witness :
  is_discontinuity lib day_long point_a point_b
  = inl (Qle_bool (inject_Z (distance_threshold day_long))
                  (Distance lib (0, 0) (5, 5))).
Proof.
  apply (a_day_long_threshold_leaves_the_distance_test lib day_long
           point_a point_b 0 1800 (0, 0) (5, 5)); try reflexivity.
  vm_compute. discriminate.
Defined.



(** X10 on the sample track. *)
Lemma a_successful_run_witness :
  input_file_format defaults = "csv"
  /\ make_reader lib defaults track_file
     = inl (csv_DictReader (csv_reader lib track_file) (input_schema defaults)).
Proof.
  apply (a_successful_run_read_csv lib defaults track_file).
  vm_compute. reflexivity.
Defined.


(** X11: [-q -th 10], then the two file names. *)
Lemma parse_args_after_a_clean_prefix_witness :
  Args.parse_args sys (["-q"; "-th"; "10"] ++ ["track.csv"; "out.csv"])
                  Args.initial
  = Args.parse_args sys ["track.csv"; "out.csv"]
      (Args.set_time_threshold 10 (Args.set_quiet_mode true Args.initial)).
Proof.
  apply (parse_args_after_a_clean_prefix sys ["-q"; "-th"; "10"]
           ["track.csv"; "out.csv"] Args.initial
           (Args.set_time_threshold 10
              (Args.set_quiet_mode true Args.initial)));
    reflexivity.
Defined.




(** X15: [--help] after the input file, before an unknown option. *)
Lemma help_witness :
  main_argv sys lib (["track.csv"] ++ "--help" :: ["-verbose"])
  = (init_state, Return 1).
Proof.
  apply (proj2 (help_returns_1 sys lib ["track.csv"] "--help" ["-verbose"]
                  (Args.set_input_file (Some "/data/track.csv")
                                       Args.initial)));
    try reflexivity.
  simpl. tauto.
Defined.



(** X18: [-op FREQUENCY]. *)
Lemma the_output_product_ignores_case_witness :
  main_argv sys lib (["track.csv"; "out.csv"] ++ "-op" :: "FREQUENCY" :: [])
  = main_argv sys lib
      (["track.csv"; "out.csv"] ++ "-op" :: lower "FREQUENCY" :: []).
Proof.
  apply (the_output_product_ignores_case sys lib ["track.csv"; "out.csv"]
           "-op" "FREQUENCY" []
           (Args.set_output_file (Some "/data/out.csv")
              (Args.set_input_file (Some "/data/track.csv") Args.initial)));
    try reflexivity.
  simpl. tauto.
Defined.

(** The plain call on the sample track, evaluated: the second point is
    written after the header, and the meter has shown three records. *)
Lemma the_plain_call_on_the_sample_track :
  o_f (fst (main_argv sys lib ["track.csv"; "out.csv"]))
  = [line header4; line "1,1800,5,5"]
  /\ console (fst (main_argv sys lib ["track.csv"; "out.csv"]))
     = [Progress 0 3; Progress 1 3; Progress 2 3]
  /\ snd (main_argv sys lib ["track.csv"; "out.csv"]) = Return 0
  /\ snd (main_argv sys lib ["-q"; "-op"; "Frequency"; "track.csv"; "out.csv"])
     = Return 0
  /\ o_f (fst (main_argv sys lib
                         ["-q"; "-op"; "Frequency"; "track.csv"; "out.csv"]))
     = ["mmsi,count" +:+ CRLF; "1,1" +:+ CRLF].
Proof. vm_compute. repeat split. Qed.
